(** * Jobs API: a shallow embedding of the controllers and the auth gate

    The repository is an Express application: [register] and [login]
    (auth controller), [getAllJobs], [getJob], [createJob], [updateJob]
    and [deleteJob] (job controller), the [auth] middleware, and the two
    Mongoose schemas [User] and [Job].

    Handlers are embedded as computations in a state-and-exception monad
    over a [world] that holds the two collections, the clock, the
    ObjectId and salt generators and a trace of the store and library
    calls made so far.  The third-party libraries the handlers call
    (bson, jsonwebtoken, bcryptjs) are an interface, [Libs]; the
    Mongoose model methods are written out over the collections.

    Strings are sequences of code units below 256; request-body members
    are modelled when they hold a JSON string or are absent.  The bodies
    modelled carry, of the paths of a schema, only those that the
    records [UserSchema.input] and [JobSchema.input] have: a body that
    also carries [_id], [createdAt] or [updatedAt], which Mongoose would
    take over into the document, is outside the model.

    Of Mongoose the model keeps what the handlers depend on: documents
    are validated against the schema before they are written ([required],
    [minlength], [maxlength], [match], [enum], casts to ObjectId);
    [create] assigns [_id] and both timestamps; an update sets the
    members present in the body and stamps [updatedAt]; a filter is cast
    against the schema before it is run; [findByIdAndUpdate(id, ...)] is
    [findOneAndUpdate({ _id: id }, ...)]. *)

From Stdlib Require Import String Ascii List ZArith NArith Lia Bool.
From stdpp Require Import base gmap strings list sorting.

Local Open Scope Z_scope.

(** ** JavaScript string helpers *)

Module Js.

(** [s.split(sep)] for a one-character separator: the pieces between
    the separators, at least one piece. *)
Fixpoint split (sep : ascii) (s : string) : list string :=
  match s with
  | EmptyString => [EmptyString]
  | String c s' =>
      if Ascii.eqb c sep then EmptyString :: split sep s'
      else match split sep s' with
           | [] => [String c EmptyString]
           | w :: ws => String c w :: ws
           end
  end.

(** [s.startsWith(p)] *)
Fixpoint startsWith (s p : string) {struct p} : bool :=
  match p, s with
  | EmptyString, _ => true
  | String _ _, EmptyString => false
  | String c p', String d s' => Ascii.eqb d c && startsWith s' p'
  end.

(** [!v] for a value that is a string or [undefined]. *)
Definition falsy (v : option string) : bool :=
  match v with
  | None => true
  | Some EmptyString => true
  | Some (String _ _) => false
  end.

(** [v === ''] for a value that is a string or [undefined]. *)
Definition isEmptyString (v : option string) : bool :=
  match v with
  | Some EmptyString => true
  | _ => false
  end.

(** Does the character occur in the string? *)
Fixpoint occurs (c : ascii) (s : string) : bool :=
  match s with
  | EmptyString => false
  | String d s' => Ascii.eqb d c || occurs c s'
  end.

End Js.

(** ** Errors and responses *)

(** The three classes of [../errors] that the controllers throw, and what
    the libraries throw.  A [ValidationError] carries the set of the
    paths that failed: the order in which Mongoose reports them is not
    part of the model. *)
Inductive error : Type :=
| BadRequestError (msg : string)
| UnauthenticatedError (msg : string)
| NotFoundError (msg : string)
| ValidationError (paths : gset string)
| CastError (path : string)
| DuplicateKeyError (path : string)
| JwtSignError.

(** Modelled from the spec: the status code of each error kind, as the
    error classes of [../errors] and the error-handler middleware assign
    it (section 7: BadRequest and validation 400, Unauthenticated 401,
    NotFound 404, duplicate e-mail 400, anything else 500). *)
Definition statusCode (e : error) : N :=
  match e with
  | BadRequestError _ => 400
  | UnauthenticatedError _ => 401
  | NotFoundError _ => 404
  | ValidationError _ => 400
  | DuplicateKeyError _ => 400
  | CastError _ => 500
  | JwtSignError => 500
  end%N.

(** The message of the errors the controllers construct themselves. *)
Definition message (e : error) : option string :=
  match e with
  | BadRequestError m | UnauthenticatedError m | NotFoundError m => Some m
  | _ => None
  end.

(** Modelled from the spec: the error-handler middleware, which turns an
    error into a status code and a body [{msg}] (section 7). *)
Definition errorHandler (e : error) : N * option string :=
  (statusCode e, message e).

Module StatusCodes.
Definition OK : N := 200%N.
Definition CREATED : N := 201%N.
End StatusCodes.

(** ** Regular expressions, for the [match] validator of [User.email] *)

Module Regex.

Inductive re : Type :=
| Void
| Eps
| Class (p : ascii -> bool)
| Cat (r1 r2 : re)
| Alt (r1 r2 : re)
| Star (r : re).

Definition Plus (r : re) : re := Cat r (Star r).
Definition Opt (r : re) : re := Alt Eps r.
Definition Lit (c : ascii) : re := Class (Ascii.eqb c).

Fixpoint nullable (r : re) : bool :=
  match r with
  | Void => false
  | Eps => true
  | Class _ => false
  | Cat r1 r2 => nullable r1 && nullable r2
  | Alt r1 r2 => nullable r1 || nullable r2
  | Star _ => true
  end.

Definition cat (r1 r2 : re) : re :=
  match r1, r2 with
  | Void, _ => Void
  | _, Void => Void
  | Eps, _ => r2
  | _, _ => Cat r1 r2
  end.

Definition alt (r1 r2 : re) : re :=
  match r1, r2 with
  | Void, _ => r2
  | _, Void => r1
  | _, _ => Alt r1 r2
  end.

(** Brzozowski derivative. *)
Fixpoint deriv (c : ascii) (r : re) : re :=
  match r with
  | Void => Void
  | Eps => Void
  | Class p => if p c then Eps else Void
  | Cat r1 r2 =>
      if nullable r1 then alt (cat (deriv c r1) r2) (deriv c r2)
      else cat (deriv c r1) r2
  | Alt r1 r2 => alt (deriv c r1) (deriv c r2)
  | Star r1 => cat (deriv c r1) (Star r1)
  end.

(** [/^r$/.test(s)] *)
Fixpoint test (r : re) (s : string) : bool :=
  match s with
  | EmptyString => nullable r
  | String c s' => test (deriv c r) s'
  end.

Definition code (c : ascii) : N := N_of_ascii c.
Definition between (lo hi : N) (c : ascii) : bool :=
  ((lo <=? code c) && (code c <=? hi))%N.
Definition digit : ascii -> bool := between 48 57.
Definition lower : ascii -> bool := between 97 122.
Definition upper : ascii -> bool := between 65 90.
Definition letter (c : ascii) : bool := lower c || upper c.
(** [\s] on code units below 256 *)
Definition space (c : ascii) : bool :=
  between 9 13 c || (code c =? 32)%N || (code c =? 160)%N.
(** [.]: anything but a line terminator *)
Definition dot (c : ascii) : bool :=
  negb ((code c =? 10)%N || (code c =? 13)%N).
Definition oneOf (s : string) (c : ascii) : bool := Js.occurs c s.

End Regex.

(** ** The schemas *)

(** An ObjectId is a 96-bit number; its generator is a counter of the
    world. *)
Abbreviation ObjectId := N (only parsing).

Module UserSchema.

Record t : Type := mk {
  _id : ObjectId;
  name : string;
  email : string;
  password : string;
  createdAt : Z;
  updatedAt : Z
}.

(** The body of a registration request that carries, of the paths of
    [UserSchema], at most [name], [email] and [password].  (Mongoose
    would also take [_id], [createdAt] and [updatedAt] from a body; such
    bodies are not modelled.) *)
Record input : Type := mkInput {
  in_name : option string;
  in_email : option string;
  in_password : option string
}.

Import Regex.

(** The negated class of the local part: none of the listed
    punctuation, no double quote (code 34), no white space. *)
Definition atomChar (c : ascii) : bool :=
  negb (oneOf "<>()[]\.,;:@" c || (code c =? 34)%N || space c).

Definition octet : re :=
  Cat (Class digit) (Cat (Opt (Class digit)) (Opt (Class digit))).

(** The pattern of the [match] validator of [email]. *)
Definition emailPattern : re :=
  Cat
    (Alt
       (Cat (Plus (Class atomChar))
            (Star (Cat (Lit ".") (Plus (Class atomChar)))))
       (Cat (Class (fun c => (code c =? 34)%N))
            (Cat (Plus (Class dot)) (Class (fun c => (code c =? 34)%N)))))
    (Cat (Lit "@")
       (Alt
          (Cat (Lit "[")
             (Cat octet (Cat (Lit ".") (Cat octet (Cat (Lit ".")
             (Cat octet (Cat (Lit ".") (Cat octet (Lit "]")))))))))
          (Cat
             (Plus (Cat (Plus (Class (fun c => letter c || digit c
                                               || (code c =? 45)%N)))
                        (Lit ".")))
             (Cat (Class letter) (Plus (Class letter)))))).

(** Mongoose's [required] validator on a String path. *)
Definition present (v : option string) : bool := negb (Js.falsy v).

Definition lengthOf (v : option string) : nat :=
  match v with Some s => String.length s | None => 0%nat end.

(** The paths of [UserSchema] whose validators reject the document.
    [minlength], [maxlength] and [match] only look at a value that is
    there.  The list enumerates the paths; only the set of them reaches
    the [ValidationError]. *)
Definition invalidPaths (i : input) : list string :=
  (if present (in_name i)
      && (3 <=? lengthOf (in_name i))%nat && (lengthOf (in_name i) <=? 50)%nat
   then [] else ["name"])
  ++ (if present (in_email i)
         && match in_email i with
            | Some e => test emailPattern e
            | None => true
            end
      then [] else ["email"])
  ++ (if present (in_password i) && (6 <=? lengthOf (in_password i))%nat
      then [] else ["password"]).

End UserSchema.

Module JobSchema.

Record t : Type := mk {
  _id : ObjectId;
  company : string;
  position : string;
  status : string;
  createdBy : ObjectId;
  createdAt : Z;
  updatedAt : Z
}.

(** The body of a job request that carries, of the paths of
    [JobSchema], at most [company], [position], [status] and
    [createdBy]; strict mode drops what is no path of the schema.
    (Mongoose would also take [_id], [createdAt] and [updatedAt] from a
    body; such bodies are not modelled.) *)
Record input : Type := mkInput {
  in_company : option string;
  in_position : option string;
  in_status : option string;
  in_createdBy : option string
}.

Definition statusEnum : list string := ["interview"; "declined"; "pending"].
Definition statusDefault : string := "pending".

Definition inEnum (s : string) : bool :=
  existsb (String.eqb s) statusEnum.

End JobSchema.

(** ** The libraries *)

Module jwt.

(** The claims of a token this service issues: what [createJWT] signs,
    plus the two instants jsonwebtoken adds. *)
Record Payload : Type := mkPayload {
  userId : string;
  name : string;
  iat : Z;
  exp : Z
}.

(** What [jwt.verify] throws. *)
Inductive failure : Type :=
| JsonWebTokenError (msg : string)
| TokenExpiredError.

End jwt.

(** The functions of bson, jsonwebtoken (with [ms]) and bcryptjs that the
    model does not write out.  [jwtEncode k p] is the compact
    serialisation of [p] signed with [k]; [jwtDecode k t] parses [t] and
    checks its signature against [k]. *)
Class Libs : Type := {
  castObjectId : string -> option ObjectId;
  toHexString : ObjectId -> string;
  timespan : string -> option Z;
  jwtEncode : string -> jwt.Payload -> string;
  jwtDecode : string -> string -> jwt.failure + jwt.Payload;
  genSalt : N -> N -> string;
  bcryptHash : string -> string -> string;
  bcryptCompare : string -> string -> bool
}.

(** jsonwebtoken's contract: a token decodes, under the key that signed
    it, to the claims that were signed; it is not empty and holds no
    space (it is base64url text and dots). *)
Definition jwtFaithful (L : Libs) : Prop :=
  forall (k : string) (p : jwt.Payload),
    jwtDecode k (jwtEncode k p) = inr p
    /\ jwtEncode k p <> EmptyString
    /\ Js.occurs " " (jwtEncode k p) = false.

(** [process.env] *)
Record Env : Type := mkEnv {
  JWT_SECRET : option string;
  JWT_LIFETIME : option string
}.

(** ** The world and the handler monad *)

(** Calls to the stores and to the password library, as they happen. *)
Inductive call : Type :=
| CallUserCreate (email : string)
| CallUserFindOne (email : string)
| CallComparePassword (candidate hash : string)
| CallJobFind (owner : string)
| CallJobFindOne (id owner : string)
| CallJobCreate (owner : option string)
| CallJobFindByIdAndUpdate (id owner : string)
| CallJobFindOneAndDelete (id owner : string).

Record world : Type := mkWorld {
  users : list UserSchema.t;
  jobs : gmap N JobSchema.t;
  nextId : N;
  now : Z;
  entropy : N;
  trace : list call
}.

Definition result (A : Type) : Type := (error + A)%type.

(** A handler step: it returns or throws, and leaves a world behind
    either way. *)
Definition M (A : Type) : Type := world -> result A * world.

Definition ret {A} (a : A) : M A := fun w => (inr a, w).
Definition throw {A} (e : error) : M A := fun w => (inl e, w).
Definition bind {A B} (m : M A) (k : A -> M B) : M B :=
  fun w =>
    match m w with
    | (inr a, w') => k a w'
    | (inl e, w') => (inl e, w')
    end.
Definition gets {A} (f : world -> A) : M A := fun w => (inr (f w), w).
Definition modify (f : world -> world) : M unit := fun w => (inr tt, f w).

Notation "'let*' x ':=' m 'in' k" := (bind m (fun x => k))
  (at level 10, x name, m at level 100, k at level 200).
Notation "m ';;' k" := (bind m (fun _ => k))
  (at level 100, k at level 200, right associativity).

Definition record (c : call) : M unit :=
  modify (fun w => mkWorld (users w) (jobs w) (nextId w) (now w) (entropy w)
                           (trace w ++ [c])).

(** [new ObjectId()] *)
Definition newObjectId : M ObjectId :=
  fun w => (inr (nextId w),
            mkWorld (users w) (jobs w) (N.succ (nextId w)) (now w) (entropy w)
                    (trace w)).

Definition setUsers (us : list UserSchema.t) : M unit :=
  modify (fun w => mkWorld us (jobs w) (nextId w) (now w) (entropy w) (trace w)).

Definition setJobs (js : gmap N JobSchema.t) : M unit :=
  modify (fun w => mkWorld (users w) js (nextId w) (now w) (entropy w) (trace w)).

Definition drawEntropy : M N :=
  fun w => (inr (entropy w),
            mkWorld (users w) (jobs w) (nextId w) (now w) (N.succ (entropy w))
                    (trace w)).

(** ** jsonwebtoken *)

Module Token.
Section Token.
Context {L : Libs}.

(** jsonwebtoken counts in seconds, the clock in milliseconds. *)
Definition seconds (ms : Z) : Z := ms / 1000.

(** A secret that is [undefined] or empty is refused. *)
Definition usableSecret (secret : option string) : option string :=
  match secret with
  | Some (String c k) => Some (String c k)
  | _ => None
  end.

(** [jwt.sign({userId, name}, secret, {expiresIn})] at instant [clock]:
    [None] when it throws (no secret, or [expiresIn] is not a time
    span). *)
Definition sign (uid nm : string) (secret expiresIn : option string)
    (clock : Z) : option string :=
  match usableSecret secret, expiresIn with
  | Some k, Some span =>
      match timespan span with
      | Some d => Some (jwtEncode k (jwt.mkPayload uid nm clock (clock + d)))
      | None => None
      end
  | _, _ => None
  end.

(** [jwt.verify(token, secret)] at instant [clock]; the token is
    [undefined] when the header had no second field. *)
Definition verify (token : option string) (secret : option string)
    (clock : Z) : jwt.failure + jwt.Payload :=
  match token with
  | None | Some EmptyString =>
      inl (jwt.JsonWebTokenError "jwt must be provided")
  | Some t =>
      match usableSecret secret with
      | None => inl (jwt.JsonWebTokenError "secret or public key must be provided")
      | Some k =>
          match jwtDecode k t with
          | inl e => inl e
          | inr p => if jwt.exp p <=? clock then inl jwt.TokenExpiredError
                     else inr p
          end
      end
  end.

End Token.
End Token.

(** ** The Mongoose models *)

Module User.
Section User.
Context {L : Libs} (env : Env).

(** The [pre('save')] hook: a fresh salt of ten rounds, then the hash. *)
Definition preSave (plain : string) : M string :=
  let* seed := drawEntropy in
  ret (bcryptHash plain (genSalt 10 seed)).

(** [User.create(doc)] for a body of [UserSchema.input]: build the
    document (the body brings no [_id] and no timestamps, so Mongoose
    generates them), validate it, run the [pre('save')] hook, insert
    under the unique index on [email]. *)
Definition create (i : UserSchema.input) : M UserSchema.t :=
  record (CallUserCreate (default EmptyString (UserSchema.in_email i)));;
  let* id := newObjectId in
  match UserSchema.invalidPaths i with
  | (_ :: _) as ps => throw (ValidationError (list_to_set ps))
  | [] =>
      let nm := default EmptyString (UserSchema.in_name i) in
      let em := default EmptyString (UserSchema.in_email i) in
      let* hashed := preSave (default EmptyString (UserSchema.in_password i)) in
      let* us := gets users in
      let* t := gets now in
      if existsb (fun u => String.eqb (UserSchema.email u) em) us
      then throw (DuplicateKeyError "email")
      else
        let u := UserSchema.mk id nm em hashed t t in
        setUsers (us ++ [u]);;
        ret u
  end.

(** [User.findOne({ email })] *)
Definition findOne (em : string) : M (option UserSchema.t) :=
  record (CallUserFindOne em);;
  let* us := gets users in
  ret (List.find (fun u => String.eqb (UserSchema.email u) em) us).

(** [UserSchema.methods.createJWT] *)
Definition createJWT (u : UserSchema.t) : M string :=
  let* t := gets now in
  match Token.sign (toHexString (UserSchema._id u)) (UserSchema.name u)
                   (JWT_SECRET env) (JWT_LIFETIME env) (Token.seconds t) with
  | Some token => ret token
  | None => throw JwtSignError
  end.

(** [UserSchema.methods.comparePassword] *)
Definition comparePassword (u : UserSchema.t) (canditatePassword : string)
    : M bool :=
  record (CallComparePassword canditatePassword (UserSchema.password u));;
  ret (bcryptCompare canditatePassword (UserSchema.password u)).

End User.
End User.

Module Job.

(** The object the job controller passes as first argument of
    [findOne], [findByIdAndUpdate] and [findOneAndDelete]:
    [{ _id: jobId, createdBy: userId }]. *)
Record conditions : Type := mkConditions {
  _id : string;
  createdBy : string
}.

Section Job.
Context {L : Libs}.

Definition byCreatedAt (a b : JobSchema.t) : Prop :=
  JobSchema.createdAt a <= JobSchema.createdAt b.

#[global] Instance byCreatedAt_dec (a b : JobSchema.t) :
  Decision (byCreatedAt a b) := Z.le_dec _ _.

(** [.sort('createdAt')] *)
Definition sort (l : list JobSchema.t) : list JobSchema.t :=
  merge_sort byCreatedAt l.

Definition ownedBy (o : ObjectId) (l : list JobSchema.t) : list JobSchema.t :=
  filter (fun j => JobSchema.createdBy j = o) l.

(** [Job.find({ createdBy })] *)
Definition find (owner : string) : M (list JobSchema.t) :=
  record (CallJobFind owner);;
  match castObjectId owner with
  | None => throw (CastError "createdBy")
  | Some o =>
      let* js := gets jobs in
      ret (ownedBy o (map_to_list js).*2)
  end.

(** The filter [{ _id, createdBy }] cast against the schema.  Mongoose
    casts the members of a filter from the last to the first, so when
    neither casts the error names [createdBy]. *)
Definition castFilter (c : conditions) : result (ObjectId * ObjectId) :=
  match castObjectId (createdBy c), castObjectId (_id c) with
  | None, _ => inl (CastError "createdBy")
  | Some _, None => inl (CastError "_id")
  | Some o, Some i => inr (i, o)
  end.

Definition lookupOwned (i o : ObjectId) (js : gmap N JobSchema.t)
    : option JobSchema.t :=
  match js !! i with
  | Some j => if decide (JobSchema.createdBy j = o) then Some j else None
  | None => None
  end.

(** [Job.findOne({ _id, createdBy })] *)
Definition findOne (c : conditions) : M (option JobSchema.t) :=
  record (CallJobFindOne (_id c) (createdBy c));;
  match castFilter c with
  | inl e => throw e
  | inr (i, o) =>
      let* js := gets jobs in
      ret (lookupOwned i o js)
  end.

(** The paths of [JobSchema] whose validators reject a new document.
    The list enumerates them; only the set of them reaches the
    [ValidationError]. *)
Definition invalidPaths (b : JobSchema.input) : list string :=
  (if UserSchema.present (JobSchema.in_company b)
      && (UserSchema.lengthOf (JobSchema.in_company b) <=? 50)%nat
   then [] else ["company"])
  ++ (if UserSchema.present (JobSchema.in_position b)
         && (UserSchema.lengthOf (JobSchema.in_position b) <=? 100)%nat
      then [] else ["position"])
  ++ (match JobSchema.in_status b with
      | Some s => if JobSchema.inEnum s then [] else ["status"]
      | None => []
      end)
  ++ (match JobSchema.in_createdBy b with
      | Some s => match castObjectId s with
                  | Some _ => []
                  | None => ["createdBy"]
                  end
      | None => ["createdBy"]
      end).

(** [Job.create(body)] for a body of [JobSchema.input]: the body brings
    no [_id] and no timestamps, so Mongoose generates them. *)
Definition create (b : JobSchema.input) : M JobSchema.t :=
  record (CallJobCreate (JobSchema.in_createdBy b));;
  let* id := newObjectId in
  match invalidPaths b, JobSchema.in_createdBy b ≫= castObjectId with
  | [], Some owner =>
      let* t := gets now in
      let* js := gets jobs in
      let j := JobSchema.mk id
                 (default EmptyString (JobSchema.in_company b))
                 (default EmptyString (JobSchema.in_position b))
                 (default JobSchema.statusDefault (JobSchema.in_status b))
                 owner t t in
      setJobs (<[id := j]> js);;
      ret j
  | [], None => throw (ValidationError {["createdBy"]})
      (* not reached: [invalidPaths] lists [createdBy] when it does not cast *)
  | ps, _ => throw (ValidationError (list_to_set ps))
  end.

(** The paths an update sets whose validators reject it
    ([runValidators: true]).  The list enumerates them; only the set of
    them reaches the [ValidationError]. *)
Definition invalidUpdatePaths (b : JobSchema.input) : list string :=
  (match JobSchema.in_company b with
   | Some s => if negb (String.eqb s EmptyString) && (String.length s <=? 50)%nat
               then [] else ["company"]
   | None => []
   end)
  ++ (match JobSchema.in_position b with
      | Some s => if negb (String.eqb s EmptyString) && (String.length s <=? 100)%nat
                  then [] else ["position"]
      | None => []
      end)
  ++ (match JobSchema.in_status b with
      | Some s => if JobSchema.inEnum s then [] else ["status"]
      | None => []
      end).

(** The update [$set]s the members that are there and stamps
    [updatedAt]. *)
Definition applyUpdate (b : JobSchema.input) (owner : option ObjectId)
    (t : Z) (j : JobSchema.t) : JobSchema.t :=
  JobSchema.mk (JobSchema._id j)
    (default (JobSchema.company j) (JobSchema.in_company b))
    (default (JobSchema.position j) (JobSchema.in_position b))
    (default (JobSchema.status j) (JobSchema.in_status b))
    (default (JobSchema.createdBy j) owner)
    (JobSchema.createdAt j) t.

(** [Job.findByIdAndUpdate(id, update, { new: true, runValidators: true })],
    which Mongoose runs as [findOneAndUpdate({ _id: id }, ...)].  The
    controller passes the object [{ _id, createdBy }] as [id]; cast to
    an ObjectId, an object stands for its [_id] member, so the
    document is selected by [_id] alone. *)
Definition findByIdAndUpdate (id : conditions) (update : JobSchema.input)
    : M (option JobSchema.t) :=
  record (CallJobFindByIdAndUpdate (_id id) (createdBy id));;
  match castObjectId (_id id) with
  | None => throw (CastError "_id")
  | Some i =>
      match JobSchema.in_createdBy update, JobSchema.in_createdBy update ≫= castObjectId with
      | Some _, None => throw (CastError "createdBy")
      | _, owner =>
          match invalidUpdatePaths update with
          | (_ :: _) as ps => throw (ValidationError (list_to_set ps))
          | [] =>
              let* js := gets jobs in
              match js !! i with
              | None => ret None
              | Some j =>
                  let* t := gets now in
                  let j' := applyUpdate update owner t j in
                  setJobs (<[i := j']> js);;
                  ret (Some j')
              end
          end
      end
  end.

(** [Job.findOneAndDelete({ _id, createdBy })] *)
Definition findOneAndDelete (c : conditions) : M (option JobSchema.t) :=
  record (CallJobFindOneAndDelete (_id c) (createdBy c));;
  match castFilter c with
  | inl e => throw e
  | inr (i, o) =>
      let* js := gets jobs in
      match lookupOwned i o js with
      | None => ret None
      | Some j => setJobs (delete i js);; ret (Some j)
      end
  end.

End Job.
End Job.

(** ** Requests and responses *)

Module Req.

(** [req.user], as the auth gate attaches it. *)
Record user : Type := mkUser {
  userId : string;
  name : string
}.

(** The body of a login request. *)
Record login : Type := mkLogin {
  email : option string;
  password : option string
}.

End Req.

Inductive body : Type :=
| UserBody (name : string) (email : option string) (token : string)
| JobsBody (jobs : list JobSchema.t) (count : nat)
| JobBody (job : JobSchema.t)
| EmptyBody.

Record response : Type := mkResponse {
  status : N;
  json : body
}.

(** ** The auth gate *)

Section Middleware.
Context {L : Libs} (env : Env).

(** [authHeader.split(' ')[1]] *)
Definition bearerToken (authHeader : string) : option string :=
  Js.split " " authHeader !! 1%nat.

(** [!authHeader || !authHeader.startsWith('Bearer')] *)
Definition headerRefused (authorization : option string) : bool :=
  match authorization with
  | None => true
  | Some h => Js.falsy (Some h) || negb (Js.startsWith h "Bearer")
  end.

Definition authInvalid : error := UnauthenticatedError "Authentication invalid".

(** The header shape in the words of the specification (4.2, "of the
    form Bearer <token>"): the scheme Bearer, one space, and a token
    that is not empty and holds no space.  It follows the
    specification, not the source, and is there to be compared with
    [headerRefused]. *)
Definition specBearerForm (h : string) : bool :=
  match Js.split " " h with
  | [scheme; token] =>
      String.eqb scheme "Bearer" && negb (String.eqb token EmptyString)
  | _ => false
  end.

Definition auth (authorization : option string) : M Req.user :=
  match authorization with
  | None => throw authInvalid
  | Some authHeader =>
      if headerRefused (Some authHeader) then throw authInvalid
      else
        let token := bearerToken authHeader in
        let* t := gets now in
        match Token.verify token (JWT_SECRET env) (Token.seconds t) with
        | inr payload =>
            ret (Req.mkUser (jwt.userId payload) (jwt.name payload))
        | inl _ => throw authInvalid
        end
  end.

End Middleware.

(** ** The controllers *)

Section Controllers.
Context {L : Libs} (env : Env).

Definition register (b : UserSchema.input) : M response :=
  let* user := User.create b in
  let* token := User.createJWT env user in
  ret (mkResponse StatusCodes.CREATED
         (UserBody (UserSchema.name user) (Some (UserSchema.email user)) token)).

Definition invalidCredentials : error :=
  UnauthenticatedError "Invalid Credentials".

Definition login (b : Req.login) : M response :=
  if Js.falsy (Req.email b) || Js.falsy (Req.password b) then
    throw (BadRequestError "Please provide email and password")
  else
    let email := default EmptyString (Req.email b) in
    let password := default EmptyString (Req.password b) in
    let* user := User.findOne email in
    match user with
    | None => throw invalidCredentials
    | Some user =>
        let* isPasswordCorrect := User.comparePassword user password in
        if negb isPasswordCorrect then
          throw invalidCredentials
        else
          let* token := User.createJWT env user in
          ret (mkResponse StatusCodes.OK
                 (UserBody (UserSchema.name user) None token))
    end.

Definition noJob (jobId : string) : error :=
  NotFoundError ("No job with id " +:+ jobId).

Definition getAllJobs (user : Req.user) : M response :=
  let* found := Job.find (Req.userId user) in
  let jobs := Job.sort found in
  ret (mkResponse StatusCodes.OK (JobsBody jobs (length jobs))).

Definition getJob (user : Req.user) (jobId : string) : M response :=
  let* job := Job.findOne (Job.mkConditions jobId (Req.userId user)) in
  match job with
  | None => throw (noJob jobId)
  | Some job => ret (mkResponse StatusCodes.OK (JobBody job))
  end.

Definition createJob (user : Req.user) (b : JobSchema.input) : M response :=
  let b := JobSchema.mkInput (JobSchema.in_company b) (JobSchema.in_position b)
             (JobSchema.in_status b) (Some (Req.userId user)) in
  let* job := Job.create b in
  ret (mkResponse StatusCodes.CREATED (JobBody job)).

Definition updateJob (user : Req.user) (jobId : string) (b : JobSchema.input)
    : M response :=
  if Js.isEmptyString (JobSchema.in_company b)
     || Js.isEmptyString (JobSchema.in_position b) then
    throw (BadRequestError "Company or Position fields cannot be empty")
  else
    let* job := Job.findByIdAndUpdate
                  (Job.mkConditions jobId (Req.userId user)) b in
    match job with
    | None => throw (noJob jobId)
    | Some job => ret (mkResponse StatusCodes.OK (JobBody job))
    end.

Definition deleteJob (user : Req.user) (jobId : string) : M response :=
  let* job := Job.findOneAndDelete (Job.mkConditions jobId (Req.userId user)) in
  match job with
  | None => throw (noJob jobId)
  | Some _ => ret (mkResponse StatusCodes.OK EmptyBody)
  end.

(** [app.use('/api/v1/jobs', authenticateUser, jobsRouter)] *)
Definition protected {A} (authorization : option string)
    (handler : Req.user -> M A) : M A :=
  let* user := auth env authorization in
  handler user.

End Controllers.

(** What the client sees of a handler's outcome: the response it sent,
    or the status and message the error handler derives from what it
    threw. *)
Inductive reply : Type :=
| Sent (res : response)
| Failed (code : N) (msg : option string).

Definition respond (r : result response) : reply :=
  match r with
  | inr res => Sent res
  | inl e => Failed (fst (errorHandler e)) (snd (errorHandler e))
  end.

(** ** A small instance of the libraries

    Stand-ins with the interface of bson, jsonwebtoken and bcryptjs, small
    enough to run the handlers on examples: ObjectIds are rendered as 24
    hexadecimal digits, a token spells out key and claims bit by bit, a
    hash is the salt followed by the spelled-out password. *)

Module Sample.

Definition hexValue (c : ascii) : option N :=
  let n := N_of_ascii c in
  if ((48 <=? n) && (n <=? 57))%N then Some (n - 48)%N
  else if ((97 <=? n) && (n <=? 102))%N then Some (n - 87)%N
  else if ((65 <=? n) && (n <=? 70))%N then Some (n - 55)%N
  else None.

Fixpoint hexParse (acc : N) (s : string) : option N :=
  match s with
  | EmptyString => Some acc
  | String c s' =>
      match hexValue c with
      | Some d => hexParse (16 * acc + d)%N s'
      | None => None
      end
  end.

Definition castObjectId (s : string) : option N :=
  if (String.length s =? 24)%nat then hexParse 0%N s else None.

Definition hexDigit (d : N) : ascii :=
  ascii_of_N (if (d <? 10)%N then 48 + d else 87 + d)%N.

Fixpoint hexRender (n : nat) (v : N) (acc : string) : string :=
  match n with
  | O => acc
  | S n' => hexRender n' (v / 16)%N (String (hexDigit (v mod 16)%N) acc)
  end.

Definition toHexString (v : N) : string := hexRender 24 v EmptyString.

Definition timespan (s : string) : option Z :=
  if String.eqb s "30d" then Some 2592000
  else if String.eqb s "1h" then Some 3600
  else None.

Definition bit (b : bool) : ascii := if b then "1"%char else "0"%char.

Definition unbit (c : ascii) : option bool :=
  if Ascii.eqb c "1" then Some true
  else if Ascii.eqb c "0" then Some false
  else None.

Definition spellChar (c : ascii) (rest : string) : string :=
  match c with
  | Ascii b0 b1 b2 b3 b4 b5 b6 b7 =>
      String (bit b0) (String (bit b1) (String (bit b2) (String (bit b3)
      (String (bit b4) (String (bit b5) (String (bit b6) (String (bit b7)
      rest)))))))
  end.

Fixpoint spell (s : string) : string :=
  match s with
  | EmptyString => EmptyString
  | String c s' => spellChar c (spell s')
  end.

Fixpoint unspell (s : string) : option string :=
  match s with
  | EmptyString => Some EmptyString
  | String a0 (String a1 (String a2 (String a3
    (String a4 (String a5 (String a6 (String a7 rest))))))) =>
      match unbit a0, unbit a1, unbit a2, unbit a3,
            unbit a4, unbit a5, unbit a6, unbit a7, unspell rest with
      | Some b0, Some b1, Some b2, Some b3,
        Some b4, Some b5, Some b6, Some b7, Some r =>
          Some (String (Ascii b0 b1 b2 b3 b4 b5 b6 b7) r)
      | _, _, _, _, _, _, _, _, _ => None
      end
  | _ => None
  end.

Fixpoint spellPos (p : positive) : string :=
  match p with
  | xH => "e"
  | xO q => String "0" (spellPos q)
  | xI q => String "1" (spellPos q)
  end.

Fixpoint unspellPos (s : string) : option positive :=
  match s with
  | String c EmptyString => if Ascii.eqb c "e" then Some xH else None
  | String c s' =>
      match unbit c, unspellPos s' with
      | Some true, Some q => Some (xI q)
      | Some false, Some q => Some (xO q)
      | _, _ => None
      end
  | EmptyString => None
  end.

Definition spellZ (z : Z) : string :=
  match z with
  | Z0 => "z"
  | Zpos p => String "p" (spellPos p)
  | Zneg p => String "n" (spellPos p)
  end.

Definition unspellZ (s : string) : option Z :=
  match s with
  | String c s' =>
      if Ascii.eqb c "z" then
        match s' with EmptyString => Some Z0 | _ => None end
      else if Ascii.eqb c "p" then option_map Zpos (unspellPos s')
      else if Ascii.eqb c "n" then option_map Zneg (unspellPos s')
      else None
  | EmptyString => None
  end.

(** The characters that delimit: the dot inside a token, the space
    inside a header. *)
Definition separator (c : ascii) : Prop := c = "."%char \/ c = " "%char.

Definition jwtEncode (k : string) (p : jwt.Payload) : string :=
  spell k +:+ "." +:+ spell (jwt.userId p) +:+ "." +:+ spell (jwt.name p)
    +:+ "." +:+ spellZ (jwt.iat p) +:+ "." +:+ spellZ (jwt.exp p).

Definition malformed : jwt.failure := jwt.JsonWebTokenError "jwt malformed".

Definition jwtDecode (k : string) (t : string) : jwt.failure + jwt.Payload :=
  match Js.split "." t with
  | [sk; su; sn; si; se] =>
      match unspell sk, unspell su, unspell sn, unspellZ si, unspellZ se with
      | Some k', Some u, Some n, Some i, Some e =>
          if String.eqb k' k then inr (jwt.mkPayload u n i e)
          else inl (jwt.JsonWebTokenError "invalid signature")
      | _, _, _, _, _ => inl malformed
      end
  | _ => inl malformed
  end.

Definition genSalt (rounds seed : N) : string :=
  "$2a$" +:+ spellZ (Z.of_N rounds) +:+ "$" +:+ spellZ (Z.of_N seed).

Definition bcryptHash (plain salt : string) : string :=
  salt +:+ "$" +:+ spell plain.

Definition bcryptCompare (candidate hash : string) : bool :=
  match Js.split "$" hash with
  | [_; _; _; _; digest] => String.eqb digest (spell candidate)
  | _ => false
  end.

Definition libs : Libs :=
  Build_Libs castObjectId toHexString timespan jwtEncode jwtDecode
             genSalt bcryptHash bcryptCompare.

Definition env : Env := mkEnv (Some "jwtSecret") (Some "30d").

(** An empty database at instant 1000000 (milliseconds). *)
Definition start : world := mkWorld [] ∅ 1%N 1000000 0%N [].

End Sample.


(** ** A run of the service

    Ann and Bob register on an empty database, then Ann files a job. *)

Module Scenario.

#[local] Existing Instance Sample.libs.

Definition ann : UserSchema.input :=
  UserSchema.mkInput (Some "Ann") (Some "ann@x.com") (Some "secret1").
Definition bob : UserSchema.input :=
  UserSchema.mkInput (Some "Bob") (Some "bob@y.org") (Some "hunter22").

Definition tokenOf (r : result response) : string :=
  match r with
  | inr (mkResponse _ (UserBody _ _ token)) => token
  | _ => EmptyString
  end.

Definition annRegistered : result response * world :=
  register Sample.env ann Sample.start.
Definition bobRegistered : result response * world :=
  register Sample.env bob (snd annRegistered).

Definition annHeader : option string :=
  Some ("Bearer " +:+ tokenOf (fst annRegistered)).
Definition bobHeader : option string :=
  Some ("Bearer " +:+ tokenOf (fst bobRegistered)).

Definition annId : string := "000000000000000000000001".
Definition bobId : string := "000000000000000000000002".
Definition jobId : string := "000000000000000000000003".

Definition annUser : Req.user := Req.mkUser annId "Ann".
Definition bobUser : Req.user := Req.mkUser bobId "Bob".

(** Ann's job; the request names Bob as [createdBy]. *)
Definition acme : JobSchema.input :=
  JobSchema.mkInput (Some "Acme") (Some "Engineer") None (Some bobId).

Definition annFiled : result response * world :=
  protected Sample.env annHeader (fun u => createJob u acme)
    (snd bobRegistered).

(** The database once Ann's job is in it. *)
Definition filed : world := snd annFiled.

Definition annJob : JobSchema.t :=
  JobSchema.mk 3 "Acme" "Engineer" "pending" 1 1000000 1000000.

(** Two update bodies: a new company name, a new owner. *)
Definition rename : JobSchema.input :=
  JobSchema.mkInput (Some "Mallory Ltd") None None None.
Definition reassign : JobSchema.input :=
  JobSchema.mkInput None None None (Some bobId).

(** A request on a job route, with Bob's token and with Ann's. *)
Definition asBob {A} (handler : Req.user -> M A) : result A * world :=
  protected Sample.env bobHeader handler filed.
Definition asAnn {A} (handler : Req.user -> M A) : result A * world :=
  protected Sample.env annHeader handler filed.

(** Bob files a job of his own; half a second later Ann files a second
    one. *)
Definition initech : JobSchema.input :=
  JobSchema.mkInput (Some "Initech") (Some "Tester") (Some "declined") None.
Definition globex : JobSchema.input :=
  JobSchema.mkInput (Some "Globex") (Some "Analyst") (Some "interview") None.

Definition tick (ms : Z) (w : world) : world :=
  mkWorld (users w) (jobs w) (nextId w) (now w + ms) (entropy w) (trace w).

Definition busy : world :=
  snd (protected Sample.env annHeader (fun u => createJob u globex)
         (tick 500 (snd (asBob (fun u => createJob u initech))))).

Definition globexJob : JobSchema.t :=
  JobSchema.mk 5 "Globex" "Analyst" "interview" 1 1000500 1000500.

End Scenario.

(** ** Requests, runs and invariants *)

(** A request to one of the handlers of the two controllers. *)
Inductive request : Type :=
| Register (b : UserSchema.input)
| Login (b : Req.login)
| GetAllJobs (user : Req.user)
| GetJob (user : Req.user) (jobId : string)
| CreateJob (user : Req.user) (b : JobSchema.input)
| UpdateJob (user : Req.user) (jobId : string) (b : JobSchema.input)
| DeleteJob (user : Req.user) (jobId : string).

Definition handle {L : Libs} (env : Env) (r : request) : M response :=
  match r with
  | Register b => register env b
  | Login b => login env b
  | GetAllJobs user => getAllJobs user
  | GetJob user jobId => getJob user jobId
  | CreateJob user b => createJob user b
  | UpdateJob user jobId b => updateJob user jobId b
  | DeleteJob user jobId => deleteJob user jobId
  end.

(** Time passing between two requests. *)
Definition elapse (ms : Z) (w : world) : world :=
  mkWorld (users w) (jobs w) (nextId w) (now w + ms) (entropy w) (trace w).

(** The worlds the service can be in: it starts on empty collections,
    then serves requests, with time passing in between. *)
Inductive reachable {L : Libs} (env : Env) : world -> Prop :=
| reach_start (n : N) (t : Z) (e : N) :
    reachable env (mkWorld [] ∅ n t e [])
| reach_handle (r : request) (w : world) :
    reachable env w -> reachable env (snd (handle env r w))
| reach_elapse (ms : Z) (w : world) :
    0 <= ms -> reachable env w -> reachable env (elapse ms w).

(** Every job sits under its own [_id], and the ObjectId generator is
    ahead of every [_id] in use. *)
Definition jobsKeyed (w : world) : Prop :=
  forall i j, jobs w !! i = Some j ->
    JobSchema._id j = i /\ (i < nextId w)%N.

(** The unique index on [email]. *)
Definition emailsUnique (w : world) : Prop :=
  NoDup (UserSchema.email <$> users w).

(** bcryptjs's contract: a password compares equal to its own hash. *)
Definition bcryptFaithful (L : Libs) : Prop :=
  forall (plain : string) (rounds seed : N),
    bcryptCompare plain (bcryptHash plain (genSalt rounds seed)) = true.

(** [process.env] lets [createJWT] sign: a secret is set and
    [JWT_LIFETIME] is a time span. *)
Definition signerReady {L : Libs} (env : Env) : Prop :=
  is_Some (Token.usableSecret (JWT_SECRET env))
  /\ is_Some (JWT_LIFETIME env ≫= timespan).

(** The strings a pattern denotes. *)
Inductive matches : Regex.re -> string -> Prop :=
| MatchEps : matches Regex.Eps EmptyString
| MatchClass (p : ascii -> bool) (c : ascii) :
    p c = true -> matches (Regex.Class p) (String c EmptyString)
| MatchCat (r1 r2 : Regex.re) (s1 s2 : string) :
    matches r1 s1 -> matches r2 s2 -> matches (Regex.Cat r1 r2) (s1 +:+ s2)
| MatchAltL (r1 r2 : Regex.re) (s : string) :
    matches r1 s -> matches (Regex.Alt r1 r2) s
| MatchAltR (r1 r2 : Regex.re) (s : string) :
    matches r2 s -> matches (Regex.Alt r1 r2) s
| MatchStarNil (r : Regex.re) : matches (Regex.Star r) EmptyString
| MatchStarCons (r : Regex.re) (s1 s2 : string) :
    matches r s1 -> matches (Regex.Star r) s2 ->
    matches (Regex.Star r) (s1 +:+ s2).

(** ** A second run, request by request *)

Module Run.

#[local] Existing Instance Sample.libs.

Definition registered : world :=
  snd (handle Sample.env (Register Scenario.ann) Sample.start).
Definition both : world :=
  snd (handle Sample.env (Register Scenario.bob) registered).
Definition filed : world :=
  snd (handle Sample.env (CreateJob Scenario.annUser Scenario.acme) both).

(** Bob files a job too; half a second later Ann files a second one. *)
Definition busy : world :=
  snd (handle Sample.env (CreateJob Scenario.annUser Scenario.globex)
         (elapse 500
            (snd (handle Sample.env
                    (CreateJob Scenario.bobUser Scenario.initech) filed)))).

(** An environment whose [JWT_SECRET] is not set. *)
Definition unsigned : Env := mkEnv None (Some "30d").

Definition carol : UserSchema.input :=
  UserSchema.mkInput (Some "Carol") (Some "carol@z.net") (Some "letmein9").

(** A company name of 51 characters. *)
Definition longCompany : string :=
  "Consolidated Amalgamated International Holdings Plc".

Definition annLogin : Req.login :=
  Req.mkLogin (Some "ann@x.com") (Some "secret1").

End Run.

Ltac run :=
  unfold bind, ret, throw, gets, modify, record, newObjectId, setUsers,
    setJobs, drawEntropy; simpl.

(** * Properties *)

(** ** Splitting a header *)

Section SplitFacts.
Variable sep : ascii.

Lemma split_nonempty (s : string) : Js.split sep s <> [].
Proof.
  destruct s as [|c s]; simpl; [discriminate|].
  destruct (Ascii.eqb c sep); [discriminate|].
  destruct (Js.split sep s); discriminate.
Qed.

(** A string without separator is a single piece. *)
Lemma split_whole (s : string) :
  Js.occurs sep s = false -> Js.split sep s = [s].
Proof.
  induction s as [|c s IH]; simpl; [reflexivity|].
  intros Hoc. apply orb_false_iff in Hoc as [Hc Hs].
  rewrite Hc, (IH Hs). reflexivity.
Qed.

(** The first piece ends at the first separator. *)
Lemma split_first (a b : string) :
  Js.occurs sep a = false ->
  Js.split sep (a +:+ String sep b) = a :: Js.split sep b.
Proof.
  induction a as [|c a IH]; simpl.
  - intros _. rewrite Ascii.eqb_refl. reflexivity.
  - intros Hoc. apply orb_false_iff in Hoc as [Hc Ha].
    rewrite Hc, (IH Ha). reflexivity.
Qed.

Lemma split_first_lit (a b : string) :
  Js.occurs sep a = false ->
  Js.split sep (a +:+ String sep EmptyString +:+ b) = a :: Js.split sep b.
Proof. apply split_first. Qed.

End SplitFacts.

Lemma startsWith_append (p rest : string) :
  Js.startsWith (p +:+ rest) p = true.
Proof.
  induction p as [|c p IH]; simpl; [reflexivity|].
  now rewrite Ascii.eqb_refl, IH.
Qed.

Lemma startsWith_prefix (h p : string) :
  Js.startsWith h p = true <-> exists rest, h = p +:+ rest.
Proof.
  split.
  - revert h. induction p as [|c p IH]; intros h; simpl.
    + intros _. exists h. reflexivity.
    + destruct h as [|d h]; [discriminate|].
      intros Hpre. apply andb_true_iff in Hpre as [Hc Hp].
      apply Ascii.eqb_eq in Hc. subst d.
      destruct (IH h Hp) as [rest ->]. exists rest. reflexivity.
  - intros [rest ->]. apply startsWith_append.
Qed.

Lemma startsWith_no_prefix (h p : string) :
  (forall rest, h <> p +:+ rest) -> Js.startsWith h p = false.
Proof.
  intros Hno. destruct (Js.startsWith h p) eqn:Hpre; [|reflexivity].
  apply startsWith_prefix in Hpre as [rest ->]. now destruct (Hno rest).
Qed.

(** ** The auth gate *)

Section AuthFacts.
Context {L : Libs} (env : Env).

Lemma headerRefused_absent : headerRefused None = true.
Proof. reflexivity. Qed.

Lemma headerRefused_not_bearer (h : string) :
  Js.startsWith h "Bearer" = false -> headerRefused (Some h) = true.
Proof. intros H. unfold headerRefused. rewrite H. apply orb_true_r. Qed.

Lemma headerRefused_bearer (rest : string) :
  headerRefused (Some ("Bearer" +:+ rest)) = false.
Proof.
  unfold headerRefused. rewrite startsWith_append. reflexivity.
Qed.

(** What [auth] does with a header that passes the shape check: it
    verifies the second space-separated field and nothing else. *)
Lemma auth_accepted_header (h : string) (w : world) :
  headerRefused (Some h) = false ->
  auth env (Some h) w =
    (match Token.verify (Js.split " " h !! 1%nat) (JWT_SECRET env)
                        (Token.seconds (now w)) with
     | inr p => inr (Req.mkUser (jwt.userId p) (jwt.name p))
     | inl _ => inl authInvalid
     end, w).
Proof.
  intros Hok. unfold auth. rewrite Hok.
  unfold bind, gets, bearerToken.
  destruct (Token.verify _ _ _); reflexivity.
Qed.

Lemma auth_refused_header (a : option string) (w : world) :
  headerRefused a = true -> auth env a w = (inl authInvalid, w).
Proof.
  intros Hno. unfold auth. destruct a as [h|]; [|reflexivity].
  rewrite Hno. reflexivity.
Qed.

Lemma verify_missing (secret : option string) (clock : Z) :
  Token.verify None secret clock
  = inl (jwt.JsonWebTokenError "jwt must be provided").
Proof. reflexivity. Qed.

(** A token past its expiry instant is refused whatever it decodes to. *)
Lemma verify_expired (t k : string) (p : jwt.Payload) (clock : Z) :
  t <> EmptyString -> k <> EmptyString ->
  jwtDecode k t = inr p -> jwt.exp p <= clock ->
  Token.verify (Some t) (Some k) clock = inl jwt.TokenExpiredError.
Proof.
  intros Ht Hk Hdec Hexp. unfold Token.verify.
  destruct t as [|c t]; [contradiction|].
  destruct k as [|d k]; [contradiction|]. simpl.
  rewrite Hdec. destruct (Z.leb_spec (jwt.exp p) clock); [reflexivity|lia].
Qed.

(** A token that does not decode under the key is refused. *)
Lemma verify_undecodable (t : option string) (secret : option string)
    (clock : Z) (e : jwt.failure) :
  (forall s k, t = Some s -> Token.usableSecret secret = Some k ->
               jwtDecode k s = inl e) ->
  exists e', Token.verify t secret clock = inl e'.
Proof.
  intros Hdec. unfold Token.verify.
  destruct t as [[|c s]|]; eauto.
  destruct (Token.usableSecret secret) as [k|] eqn:Hk; eauto.
  rewrite (Hdec _ _ eq_refl eq_refl). eauto.
Qed.

End AuthFacts.

(** Whatever stands between "Bearer" and the first space is ignored:
    the gate treats "Bearer<junk> <token>" as it treats "Bearer <token>". *)
Lemma auth_glued_prefix (L : Libs) (env : Env) (junk token : string)
    (w : world) :
  Js.occurs " " junk = false ->
  auth env (Some ("Bearer" +:+ junk +:+ " " +:+ token)) w
  = auth env (Some ("Bearer " +:+ token)) w.
Proof.
  intros Hjunk.
  rewrite !auth_accepted_header.
  - change ("Bearer " +:+ token) with ("Bearer" +:+ " " +:+ token).
    assert (Hsplit : forall a, Js.occurs " " a = false ->
              Js.split " " (a +:+ " " +:+ token) !! 1%nat
              = Js.split " " token !! 0%nat).
    { intros a Ha. now rewrite split_first_lit. }
    replace ("Bearer" +:+ junk +:+ " " +:+ token)
      with (("Bearer" +:+ junk) +:+ " " +:+ token) by reflexivity.
    rewrite (Hsplit ("Bearer" +:+ junk)) by (simpl; exact Hjunk).
    rewrite (Hsplit "Bearer") by reflexivity. reflexivity.
  - apply (headerRefused_bearer (String " " token)).
  - apply (headerRefused_bearer (junk +:+ " " +:+ token)).
Qed.

(** C3, amended.  On a protected route the gate throws
    [UnauthenticatedError] with the one message "Authentication invalid"
    when the Authorization header is absent, when it does not start with
    the text "Bearer", and when verifying its second space-separated
    field fails, whatever the failure is; when that field verifies, the
    gate returns [{userId, name}] taken from the payload and changes
    nothing else.  These are all the cases: the gate throws no other
    error, and it lets a request through only if the header starts with
    "Bearer" and its second field verifies.  The form "Bearer <token>"
    is not required: whatever stands between "Bearer" and the first
    space is ignored, and so is whatever follows the second field. *)
Theorem auth_unauthenticated_or_attaches
    (L : Libs) (env : Env) (w : world) :
  auth env None w = (inl authInvalid, w)
  /\ (forall h, Js.startsWith h "Bearer" = false ->
        auth env (Some h) w = (inl authInvalid, w))
  /\ (forall h e,
        Token.verify (bearerToken h) (JWT_SECRET env) (Token.seconds (now w))
          = inl e ->
        auth env (Some h) w = (inl authInvalid, w))
  /\ (forall h p,
        Js.startsWith h "Bearer" = true ->
        Token.verify (bearerToken h) (JWT_SECRET env) (Token.seconds (now w))
          = inr p ->
        auth env (Some h) w
          = (inr (Req.mkUser (jwt.userId p) (jwt.name p)), w))
  /\ (forall a e w', auth env a w = (inl e, w') -> e = authInvalid /\ w' = w)
  /\ (forall a u w', auth env a w = (inr u, w') ->
        exists h p,
          a = Some h /\ Js.startsWith h "Bearer" = true
          /\ Token.verify (bearerToken h) (JWT_SECRET env)
                          (Token.seconds (now w)) = inr p
          /\ u = Req.mkUser (jwt.userId p) (jwt.name p) /\ w' = w)
  /\ errorHandler authInvalid = (401%N, Some "Authentication invalid")
  /\ (forall h, (forall rest, h <> "Bearer" +:+ rest) ->
        auth env (Some h) w = (inl authInvalid, w))
  /\ (forall a u w', auth env a w = (inr u, w') ->
        exists rest, a = Some ("Bearer" +:+ rest))
  /\ (forall junk token more p,
        Js.occurs " " junk = false -> Js.occurs " " token = false ->
        Token.verify (Some token) (JWT_SECRET env) (Token.seconds (now w))
          = inr p ->
        auth env (Some ("Bearer" +:+ junk +:+ " " +:+ token)) w
          = (inr (Req.mkUser (jwt.userId p) (jwt.name p)), w)
        /\ auth env (Some ("Bearer" +:+ junk +:+ " " +:+ token +:+ " " +:+ more)) w
           = (inr (Req.mkUser (jwt.userId p) (jwt.name p)), w)).
Proof.
  assert (Hbad : forall h, Js.startsWith h "Bearer" = false ->
            auth env (Some h) w = (inl authInvalid, w)).
  { intros h Hno. apply auth_refused_header.
    now apply headerRefused_not_bearer. }
  assert (Hshape : forall h, Js.startsWith h "Bearer" = true ->
            headerRefused (Some h) = false).
  { intros h Hpre. unfold headerRefused. rewrite Hpre.
    destruct h; [discriminate Hpre|reflexivity]. }
  assert (Hrun : forall h, Js.startsWith h "Bearer" = true ->
            auth env (Some h) w =
              (match Token.verify (bearerToken h) (JWT_SECRET env)
                                  (Token.seconds (now w)) with
               | inr p => inr (Req.mkUser (jwt.userId p) (jwt.name p))
               | inl _ => inl authInvalid
               end, w)).
  { intros h Hpre. now rewrite (auth_accepted_header env h w (Hshape h Hpre)). }
  assert (Hlet : forall a u w', auth env a w = (inr u, w') ->
            exists h p,
              a = Some h /\ Js.startsWith h "Bearer" = true
              /\ Token.verify (bearerToken h) (JWT_SECRET env)
                              (Token.seconds (now w)) = inr p
              /\ u = Req.mkUser (jwt.userId p) (jwt.name p) /\ w' = w).
  { intros [h|] u w'; [|discriminate].
    destruct (Js.startsWith h "Bearer") eqn:Hpre.
    + rewrite (Hrun h Hpre).
      destruct (Token.verify _ _ _) as [e|p] eqn:Hver; [discriminate|].
      intros [= <- <-]. exists h, p. auto.
    + rewrite (Hbad h Hpre). discriminate. }
  assert (Hfield : forall junk tail,
            Js.occurs " " junk = false ->
            bearerToken ("Bearer" +:+ junk +:+ " " +:+ tail)
            = Js.split " " tail !! 0%nat).
  { intros junk tail Hjunk. unfold bearerToken.
    replace ("Bearer" +:+ junk +:+ " " +:+ tail)
      with (("Bearer" +:+ junk) +:+ " " +:+ tail) by reflexivity.
    rewrite split_first_lit by (simpl; exact Hjunk). reflexivity. }
  split; [reflexivity|]. split; [exact Hbad|].
  split; [|split; [|split; [|split; [exact Hlet|split; [reflexivity|]]]]].
  - intros h e Hver.
    destruct (Js.startsWith h "Bearer") eqn:Hpre; [|now apply Hbad].
    rewrite (Hrun h Hpre), Hver. reflexivity.
  - intros h p Hpre Hver. rewrite (Hrun h Hpre), Hver. reflexivity.
  - intros [h|] e w'; [|intros [= <- <-]; auto].
    destruct (Js.startsWith h "Bearer") eqn:Hpre.
    + rewrite (Hrun h Hpre). destruct (Token.verify _ _ _); [|discriminate].
      intros [= <- <-]. auto.
    + rewrite (Hbad h Hpre). intros [= <- <-]. auto.
  - split; [|split].
    + intros h Hno. apply Hbad. now apply startsWith_no_prefix.
    + intros a u w' Hrun'.
      destruct (Hlet a u w' Hrun') as (h & p & -> & Hpre & _).
      apply startsWith_prefix in Hpre as [rest ->]. now exists rest.
    + intros junk token more p Hjunk Htoken Hver. split.
      * rewrite (Hrun _ (startsWith_append "Bearer" (junk +:+ " " +:+ token))).
        rewrite (Hfield junk token Hjunk).
        rewrite (split_whole " " token Htoken).
        change ([token] !! 0%nat) with (Some token). rewrite Hver.
        reflexivity.
      * rewrite (Hrun _ (startsWith_append "Bearer"
                           (junk +:+ " " +:+ token +:+ " " +:+ more))).
        rewrite (Hfield junk (token +:+ " " +:+ more) Hjunk).
        rewrite (split_first_lit " " token more Htoken).
        change ((token :: Js.split " " more) !! 0%nat) with (Some token).
        rewrite Hver.
        reflexivity.
Qed.

(** C10.  The shape check of the gate asks that the header starts with
    "Bearer", and asks nothing else: a header passes it exactly when it
    is "Bearer" followed by any text, with no space required; an absent
    header and a header that does not start with "Bearer" fail it and
    are refused.  The token the gate then verifies is the second
    space-separated field of the header.  A header without any space,
    such as "BearerX" or "Bearer", passes the shape check, has no second
    field, and is refused because verifying a missing token fails: the
    outcome is still [UnauthenticatedError]. *)
Theorem auth_bearer_prefix_only (L : Libs) (env : Env) (w : world) :
  (forall rest, headerRefused (Some ("Bearer" +:+ rest)) = false)
  /\ (forall h, headerRefused (Some h) = false ->
        auth env (Some h) w =
          (match Token.verify (Js.split " " h !! 1%nat) (JWT_SECRET env)
                              (Token.seconds (now w)) with
           | inr p => inr (Req.mkUser (jwt.userId p) (jwt.name p))
           | inl _ => inl authInvalid
           end, w))
  /\ (forall rest, Js.occurs " " rest = false ->
        headerRefused (Some ("Bearer" +:+ rest)) = false
        /\ bearerToken ("Bearer" +:+ rest) = None
        /\ Token.verify (bearerToken ("Bearer" +:+ rest)) (JWT_SECRET env)
                        (Token.seconds (now w))
           = inl (jwt.JsonWebTokenError "jwt must be provided")
        /\ auth env (Some ("Bearer" +:+ rest)) w = (inl authInvalid, w))
  /\ auth env (Some "BearerX") w = (inl authInvalid, w)
  /\ auth env (Some "Bearer") w = (inl authInvalid, w)
  /\ headerRefused None = true
  /\ (forall h, headerRefused (Some h) = false
                <-> exists rest, h = "Bearer" +:+ rest)
  /\ (forall h, (forall rest, h <> "Bearer" +:+ rest) ->
        headerRefused (Some h) = true
        /\ auth env (Some h) w = (inl authInvalid, w)).
Proof.
  assert (Hnospace : forall rest, Js.occurs " " rest = false ->
            bearerToken ("Bearer" +:+ rest) = None).
  { intros rest Hoc. unfold bearerToken.
    rewrite (split_whole " " ("Bearer" +:+ rest)); [reflexivity|].
    simpl. exact Hoc. }
  assert (Hgen : forall rest, Js.occurs " " rest = false ->
            auth env (Some ("Bearer" +:+ rest)) w = (inl authInvalid, w)).
  { intros rest Hoc.
    rewrite (auth_accepted_header env _ w (headerRefused_bearer rest)).
    pose proof (Hnospace rest Hoc) as Htok. unfold bearerToken in Htok.
    rewrite Htok. reflexivity. }
  split; [exact headerRefused_bearer|].
  split; [intros h Hok; now apply auth_accepted_header|].
  split.
  - intros rest Hoc. split; [apply headerRefused_bearer|].
    split; [now apply Hnospace|].
    split; [rewrite (Hnospace rest Hoc); reflexivity|now apply Hgen].
  - split; [apply (Hgen "X"); reflexivity|].
    split; [apply (Hgen EmptyString); reflexivity|].
    split; [reflexivity|]. split.
    + intros h. split.
      * unfold headerRefused. intros Hok.
        apply orb_false_iff in Hok as [_ Hpre].
        apply negb_false_iff in Hpre. now apply startsWith_prefix.
      * intros [rest ->]. apply headerRefused_bearer.
    + intros h Hno.
      assert (Hrefused : headerRefused (Some h) = true).
      { apply headerRefused_not_bearer. now apply startsWith_no_prefix. }
      split; [exact Hrefused|now apply auth_refused_header].
Qed.

(** ** The account service *)

Section AccountFacts.
Context {L : Libs} (env : Env).

Lemma findOne_traced (em : string) (w : world) :
  trace (snd (User.findOne em w)) = trace w ++ [CallUserFindOne em].
Proof. reflexivity. Qed.

Lemma comparePassword_traced (u : UserSchema.t) (p : string) (w : world) :
  trace (snd (User.comparePassword u p w))
  = trace w ++ [CallComparePassword p (UserSchema.password u)].
Proof. reflexivity. Qed.

Lemma login_missing_field (b : Req.login) (w : world) :
  Js.falsy (Req.email b) || Js.falsy (Req.password b) = true ->
  login env b w
  = (inl (BadRequestError "Please provide email and password"), w).
Proof. intros H. unfold login. rewrite H. reflexivity. Qed.

Lemma login_unknown_email (e p : string) (w : world) :
  e <> EmptyString -> p <> EmptyString ->
  List.find (fun u => String.eqb (UserSchema.email u) e) (users w) = None ->
  fst (login env (Req.mkLogin (Some e) (Some p)) w) = inl invalidCredentials.
Proof.
  intros He Hp Hfind. unfold login.
  destruct e as [|c e]; [contradiction|].
  destruct p as [|d p]; [contradiction|].
  simpl. unfold User.findOne. run. rewrite Hfind. reflexivity.
Qed.

Lemma login_wrong_password (e p : string) (u : UserSchema.t) (w : world) :
  e <> EmptyString -> p <> EmptyString ->
  List.find (fun u => String.eqb (UserSchema.email u) e) (users w) = Some u ->
  bcryptCompare p (UserSchema.password u) = false ->
  fst (login env (Req.mkLogin (Some e) (Some p)) w) = inl invalidCredentials.
Proof.
  intros He Hp Hfind Hcmp. unfold login.
  destruct e as [|c e]; [contradiction|].
  destruct p as [|d p]; [contradiction|].
  simpl. unfold User.findOne, User.comparePassword. run.
  rewrite Hfind. simpl. rewrite Hcmp. reflexivity.
Qed.

End AccountFacts.

(** C5.  A login whose e-mail matches no credential record and a login
    whose e-mail matches one but whose password does not match its hash
    fail alike: both throw the same error, so the client receives the
    same status code, 401, and the same body, the message "Invalid
    Credentials". *)
Theorem login_failures_indistinguishable
    (L : Libs) (env : Env) (w1 w2 : world)
    (e1 p1 e2 p2 : string) (u : UserSchema.t) :
  e1 <> EmptyString -> p1 <> EmptyString ->
  e2 <> EmptyString -> p2 <> EmptyString ->
  List.find (fun u => String.eqb (UserSchema.email u) e1) (users w1) = None ->
  List.find (fun u => String.eqb (UserSchema.email u) e2) (users w2) = Some u ->
  bcryptCompare p2 (UserSchema.password u) = false ->
  fst (login env (Req.mkLogin (Some e1) (Some p1)) w1)
    = fst (login env (Req.mkLogin (Some e2) (Some p2)) w2)
  /\ respond (fst (login env (Req.mkLogin (Some e1) (Some p1)) w1))
     = Failed 401 (Some "Invalid Credentials")
  /\ respond (fst (login env (Req.mkLogin (Some e2) (Some p2)) w2))
     = Failed 401 (Some "Invalid Credentials").
Proof.
  intros He1 Hp1 He2 Hp2 Hnone Hsome Hcmp.
  rewrite (login_unknown_email env e1 p1 w1 He1 Hp1 Hnone).
  rewrite (login_wrong_password env e2 p2 u w2 He2 Hp2 Hsome Hcmp).
  repeat split.
Qed.

(** C9.  A login whose e-mail or password is the empty string is treated
    as one that lacks it: it fails with [BadRequestError], status 400,
    never with [UnauthenticatedError], and the world is left as it was,
    so no credential was looked up and no hash compared. *)
Theorem login_empty_field_BadRequest
    (L : Libs) (env : Env) (b : Req.login) (w : world) :
  Req.email b = Some EmptyString \/ Req.password b = Some EmptyString ->
  login env b w
    = (inl (BadRequestError "Please provide email and password"), w)
  /\ respond (fst (login env b w))
     = Failed 400 (Some "Please provide email and password")
  /\ (forall m, fst (login env b w) <> inl (UnauthenticatedError m))
  /\ trace (snd (login env b w)) = trace w
  /\ login env b w
     = login env (Req.mkLogin
                    (match Req.email b with Some EmptyString => None | v => v end)
                    (match Req.password b with Some EmptyString => None | v => v end))
             w.
Proof.
  intros Hempty.
  assert (Hf : Js.falsy (Req.email b) || Js.falsy (Req.password b) = true).
  { destruct Hempty as [H|H]; rewrite H; simpl;
      [reflexivity|apply orb_true_r]. }
  rewrite (login_missing_field env b w Hf).
  repeat split; try discriminate.
  symmetry. apply login_missing_field. simpl.
  destruct Hempty as [H|H]; rewrite H; simpl; [reflexivity|apply orb_true_r].
Qed.

(** ** The job service *)

#[global] Instance byCreatedAt_total : Total Job.byCreatedAt.
Proof. intros a b. unfold Job.byCreatedAt. lia. Qed.

#[global] Instance byCreatedAt_trans : Transitive Job.byCreatedAt.
Proof. intros a b c. unfold Job.byCreatedAt. lia. Qed.

Section JobFacts.
Context {L : Libs}.

Lemma lookupOwned_Some (i o : N) (js : gmap N JobSchema.t) (j : JobSchema.t) :
  Job.lookupOwned i o js = Some j <-> js !! i = Some j /\ JobSchema.createdBy j = o.
Proof.
  unfold Job.lookupOwned. destruct (js !! i) as [j'|]; [|intuition discriminate].
  destruct (decide (JobSchema.createdBy j' = o)) as [Ho|Ho].
  - split; [intros [= <-]; auto|intros [[= <-] _]; reflexivity].
  - split; [discriminate|intros [[= <-] Ho']; contradiction].
Qed.

Lemma lookupOwned_foreign (i o : N) (js : gmap N JobSchema.t) (j : JobSchema.t) :
  js !! i = Some j -> JobSchema.createdBy j <> o -> Job.lookupOwned i o js = None.
Proof.
  intros Hj Hne. unfold Job.lookupOwned. rewrite Hj.
  destruct (decide (JobSchema.createdBy j = o)); [contradiction|reflexivity].
Qed.

Lemma lookupOwned_deleted (i o : N) (js : gmap N JobSchema.t) :
  Job.lookupOwned i o (delete i js) = None.
Proof. unfold Job.lookupOwned. now rewrite lookup_delete_eq. Qed.

Lemma castFilter_ok (jobId uid : string) (i o : N) :
  castObjectId jobId = Some i -> castObjectId uid = Some o ->
  Job.castFilter (Job.mkConditions jobId uid) = inr (i, o).
Proof. intros Hi Ho. unfold Job.castFilter. simpl. now rewrite Ho, Hi. Qed.

(** [getJob] answers from the caller's own jobs only. *)
Lemma getJob_result (user : Req.user) (jobId : string) (i o : N) (w : world) :
  castObjectId jobId = Some i -> castObjectId (Req.userId user) = Some o ->
  fst (getJob user jobId w)
  = match Job.lookupOwned i o (jobs w) with
    | Some j => inr (mkResponse StatusCodes.OK (JobBody j))
    | None => inl (noJob jobId)
    end
  /\ jobs (snd (getJob user jobId w)) = jobs w.
Proof.
  intros Hi Ho. unfold getJob, Job.findOne. run.
  rewrite (castFilter_ok _ _ _ _ Hi Ho). run.
  destruct (Job.lookupOwned i o (jobs w)); split; reflexivity.
Qed.

(** [deleteJob] removes one of the caller's own jobs or nothing. *)
Lemma deleteJob_result (user : Req.user) (jobId : string) (i o : N) (w : world) :
  castObjectId jobId = Some i -> castObjectId (Req.userId user) = Some o ->
  match Job.lookupOwned i o (jobs w) with
  | Some j =>
      fst (deleteJob user jobId w) = inr (mkResponse StatusCodes.OK EmptyBody)
      /\ jobs (snd (deleteJob user jobId w)) = delete i (jobs w)
  | None =>
      fst (deleteJob user jobId w) = inl (noJob jobId)
      /\ jobs (snd (deleteJob user jobId w)) = jobs w
  end.
Proof.
  intros Hi Ho. unfold deleteJob, Job.findOneAndDelete. run.
  rewrite (castFilter_ok _ _ _ _ Hi Ho). run.
  destruct (Job.lookupOwned i o (jobs w)); split; reflexivity.
Qed.

(** Tenant isolation of [getJob] and [deleteJob]: a job of another
    owner is not found, not returned and not touched. *)
Lemma getJob_foreign (user : Req.user) (jobId : string) (i o : N)
    (j : JobSchema.t) (w : world) :
  castObjectId jobId = Some i -> castObjectId (Req.userId user) = Some o ->
  jobs w !! i = Some j -> JobSchema.createdBy j <> o ->
  fst (getJob user jobId w) = inl (noJob jobId)
  /\ jobs (snd (getJob user jobId w)) = jobs w.
Proof.
  intros Hi Ho Hj Hne.
  destruct (getJob_result user jobId i o w Hi Ho) as [Hr Hs].
  rewrite Hr, (lookupOwned_foreign _ _ _ _ Hj Hne). auto.
Qed.

Lemma deleteJob_foreign (user : Req.user) (jobId : string) (i o : N)
    (j : JobSchema.t) (w : world) :
  castObjectId jobId = Some i -> castObjectId (Req.userId user) = Some o ->
  jobs w !! i = Some j -> JobSchema.createdBy j <> o ->
  fst (deleteJob user jobId w) = inl (noJob jobId)
  /\ jobs (snd (deleteJob user jobId w)) = jobs w.
Proof.
  intros Hi Ho Hj Hne.
  pose proof (deleteJob_result user jobId i o w Hi Ho) as Hr.
  now rewrite (lookupOwned_foreign _ _ _ _ Hj Hne) in Hr.
Qed.

(** The by-id update never throws one of the controller's own errors. *)
Lemma findByIdAndUpdate_throws (c : Job.conditions) (b : JobSchema.input)
    (w : world) (e : error) :
  fst (Job.findByIdAndUpdate c b w) = inl e ->
  (exists p, e = CastError p) \/ (exists ps, e = ValidationError ps).
Proof.
  unfold Job.findByIdAndUpdate. run.
  destruct (castObjectId (Job._id c)) as [i|]; simpl;
    [|intros [= <-]; eauto].
  destruct (JobSchema.in_createdBy b) as [s|]; simpl.
  - destruct (castObjectId s) as [o|]; simpl; [|intros [= <-]; eauto].
    destruct (Job.invalidUpdatePaths b) as [|p ps]; simpl;
      [|intros [= <-]; eauto].
    destruct (jobs w !! i); simpl; discriminate.
  - destruct (Job.invalidUpdatePaths b) as [|p ps]; simpl;
      [|intros [= <-]; eauto].
    destruct (jobs w !! i); simpl; discriminate.
Qed.

End JobFacts.

(** C6.  An update whose [company] or [position] is there and is the
    empty string fails with [BadRequestError], status 400, whatever else
    the request carries, and before the store is touched; an update that
    has neither member is not refused by that check: it is handed to the
    store, and whatever it then fails with is not a [BadRequestError]. *)
Theorem updateJob_empty_field_BadRequest
    (L : Libs) (user : Req.user) (jobId : string) (b : JobSchema.input)
    (w : world) :
  (JobSchema.in_company b = Some EmptyString
   \/ JobSchema.in_position b = Some EmptyString ->
     updateJob user jobId b w
       = (inl (BadRequestError "Company or Position fields cannot be empty"), w)
     /\ respond (fst (updateJob user jobId b w))
        = Failed 400 (Some "Company or Position fields cannot be empty"))
  /\ (JobSchema.in_company b = None -> JobSchema.in_position b = None ->
        trace (snd (updateJob user jobId b w))
          = trace w ++ [CallJobFindByIdAndUpdate jobId (Req.userId user)]
        /\ forall m, fst (updateJob user jobId b w) <> inl (BadRequestError m)).
Proof.
  split.
  - intros Hempty.
    assert (Hc : Js.isEmptyString (JobSchema.in_company b)
                 || Js.isEmptyString (JobSchema.in_position b) = true).
    { destruct Hempty as [H|H]; rewrite H; simpl;
        [reflexivity|apply orb_true_r]. }
    unfold updateJob. rewrite Hc. split; reflexivity.
  - intros Hc Hp. unfold updateJob. rewrite Hc, Hp. simpl.
    unfold bind.
    pose proof (findByIdAndUpdate_throws
                  (Job.mkConditions jobId (Req.userId user)) b w) as Hthrow.
    assert (Htr : trace (snd (Job.findByIdAndUpdate
                    (Job.mkConditions jobId (Req.userId user)) b w))
                  = trace w ++ [CallJobFindByIdAndUpdate jobId (Req.userId user)]).
    { unfold Job.findByIdAndUpdate. run.
      destruct (castObjectId jobId) as [i|]; simpl; [|reflexivity].
      destruct (JobSchema.in_createdBy b) as [s|]; simpl;
        [destruct (castObjectId s); simpl; [|reflexivity]|];
        (destruct (Job.invalidUpdatePaths b); simpl; [|reflexivity]);
        destruct (jobs w !! i); reflexivity. }
    destruct (Job.findByIdAndUpdate _ b w) as [[e|[j|]] w'] eqn:Hrun;
      simpl in *; (split; [exact Htr|]); intros m; try discriminate.
    intros [= ->]. destruct (Hthrow _ eq_refl) as [[p Hp']|[ps Hps]];
      discriminate.
Qed.

(** C7.  For a job the caller owns, a first [deleteJob] on its id
    succeeds (200, empty body) and removes it; a second one by the same
    caller on the same id fails with [NotFoundError] (404) and changes
    nothing, whether it comes at once or later, as long as no job has
    appeared under that id. *)
Theorem deleteJob_twice
    (L : Libs) (user : Req.user) (jobId : string) (i o : N)
    (j : JobSchema.t) (w : world) :
  castObjectId jobId = Some i ->
  castObjectId (Req.userId user) = Some o ->
  jobs w !! i = Some j ->
  JobSchema.createdBy j = o ->
  respond (fst (deleteJob user jobId w))
    = Sent (mkResponse 200 EmptyBody)
  /\ jobs (snd (deleteJob user jobId w)) = delete i (jobs w)
  /\ respond (fst (deleteJob user jobId (snd (deleteJob user jobId w))))
     = Failed 404 (Some ("No job with id " +:+ jobId))
  /\ jobs (snd (deleteJob user jobId (snd (deleteJob user jobId w))))
     = jobs (snd (deleteJob user jobId w))
  /\ (forall w2, jobs w2 !! i = None ->
        respond (fst (deleteJob user jobId w2))
          = Failed 404 (Some ("No job with id " +:+ jobId))
        /\ jobs (snd (deleteJob user jobId w2)) = jobs w2).
Proof.
  intros Hi Ho Hj Hown.
  pose proof (deleteJob_result user jobId i o w Hi Ho) as H1.
  rewrite (proj2 (lookupOwned_Some i o (jobs w) j) (conj Hj Hown)) in H1.
  destruct H1 as [Hr1 Hs1].
  assert (Hgone : forall w2, jobs w2 !! i = None ->
            respond (fst (deleteJob user jobId w2))
              = Failed 404 (Some ("No job with id " +:+ jobId))
            /\ jobs (snd (deleteJob user jobId w2)) = jobs w2).
  { intros w2 Hnone.
    pose proof (deleteJob_result user jobId i o w2 Hi Ho) as H2.
    unfold Job.lookupOwned in H2. rewrite Hnone in H2.
    destruct H2 as [Hr2 Hs2]. rewrite Hr2, Hs2. split; reflexivity. }
  destruct (Hgone (snd (deleteJob user jobId w))) as [Hr2 Hs2].
  { rewrite Hs1. apply lookup_delete_eq. }
  rewrite Hr1, Hr2, Hs2.
  split; [reflexivity|]. split; [exact Hs1|]. split; [reflexivity|].
  split; [reflexivity|exact Hgone].
Qed.

(** C8.  For a caller whose identifier is [o], [getAllJobs] answers 200
    with a list and its length: the list holds exactly the stored jobs
    whose [createdBy] is [o], each once, in ascending order of
    [createdAt]. *)
Theorem getAllJobs_own_sorted
    (L : Libs) (user : Req.user) (o : N) (w : world) :
  castObjectId (Req.userId user) = Some o ->
  exists l : list JobSchema.t,
    fst (getAllJobs user w)
      = inr (mkResponse 200 (JobsBody l (length l)))
    /\ StronglySorted Job.byCreatedAt l
    /\ l ≡ₚ filter (fun j => JobSchema.createdBy j = o) (map_to_list (jobs w)).*2
    /\ (forall j, j ∈ l <->
          (exists i, jobs w !! i = Some j) /\ JobSchema.createdBy j = o)
    /\ jobs (snd (getAllJobs user w)) = jobs w.
Proof.
  intros Ho. unfold getAllJobs, Job.find. run. rewrite Ho. run.
  eexists. split; [reflexivity|].
  split; [apply StronglySorted_merge_sort; apply _|].
  split; [apply merge_sort_Permutation|].
  split; [|reflexivity].
  intros j. unfold Job.sort. rewrite merge_sort_Permutation.
  unfold Job.ownedBy. rewrite list_elem_of_filter, list_elem_of_fmap.
  split.
  - intros [Hown [[i j'] [-> Hin]]]. apply elem_of_map_to_list in Hin.
    split; [exists i; exact Hin|exact Hown].
  - intros [[i Hin] Hown]. split; [exact Hown|].
    exists (i, j). split; [reflexivity|]. now apply elem_of_map_to_list.
Qed.

(** ** Issuing and verifying tokens *)

Section TokenFacts.
Context {L : Libs} (env : Env).
Hypothesis faithful : jwtFaithful L.

(** A token that [sign] returns verifies, until it expires, to the
    claims it was signed for. *)
Lemma verify_sign (uid nm : string) (secret lifetime : option string)
    (clock : Z) (token : string) :
  Token.sign uid nm secret lifetime clock = Some token ->
  exists d,
    (lifetime ≫= timespan) = Some d
    /\ forall c,
         Token.verify (Some token) secret c
         = if clock + d <=? c then inl jwt.TokenExpiredError
           else inr (jwt.mkPayload uid nm clock (clock + d)).
Proof.
  unfold Token.sign, Token.verify.
  destruct (Token.usableSecret secret) as [k|]; [|discriminate].
  destruct lifetime as [span|]; [|discriminate]. simpl.
  destruct (timespan span) as [d|]; [|discriminate].
  intros [= <-]. exists d. split; [reflexivity|]. intros c.
  destruct (faithful k (jwt.mkPayload uid nm clock (clock + d)))
    as (Hdec & Hne & _).
  destruct (jwtEncode k _) as [|a t] eqn:Henc; [contradiction|].
  rewrite Hdec. reflexivity.
Qed.

Lemma bearerToken_of_token (token : string) :
  Js.occurs " " token = false ->
  bearerToken ("Bearer " +:+ token) = Some token.
Proof.
  intros Hoc. unfold bearerToken.
  change ("Bearer " +:+ token) with ("Bearer" +:+ String " " token).
  rewrite split_first by reflexivity.
  rewrite (split_whole " " token Hoc). reflexivity.
Qed.

Lemma sign_no_space (uid nm : string) (secret lifetime : option string)
    (clock : Z) (token : string) :
  Token.sign uid nm secret lifetime clock = Some token ->
  Js.occurs " " token = false.
Proof.
  unfold Token.sign.
  destruct (Token.usableSecret secret) as [k|]; [|discriminate].
  destruct lifetime as [span|]; [|discriminate].
  destruct (timespan span) as [d|]; [|discriminate].
  intros [= <-]. apply faithful.
Qed.

End TokenFacts.

Section RegisterFacts.
Context {L : Libs} (env : Env).

(** What a successful [register] did: it appended one credential
    record and signed a token for that record's [_id] and [name] at the
    instant of the request. *)
Lemma register_success (b : UserSchema.input) (w w' : world)
    (res : response) :
  register env b w = (inr res, w') ->
  exists (u : UserSchema.t) (token : string),
    users w' = users w ++ [u]
    /\ now w' = now w
    /\ UserSchema.invalidPaths b = []
    /\ UserSchema.name u = default EmptyString (UserSchema.in_name b)
    /\ UserSchema.email u = default EmptyString (UserSchema.in_email b)
    /\ res = mkResponse 201 (UserBody (UserSchema.name u)
                               (Some (UserSchema.email u)) token)
    /\ Token.sign (toHexString (UserSchema._id u)) (UserSchema.name u)
                  (JWT_SECRET env) (JWT_LIFETIME env)
                  (Token.seconds (now w)) = Some token.
Proof.
  unfold register, User.create, User.createJWT, User.preSave. run.
  destruct (UserSchema.invalidPaths b) as [|p ps]; simpl; [|discriminate].
  destruct (existsb _ (users w)); simpl; [discriminate|].
  destruct (Token.sign _ _ _ _ _) as [token|] eqn:Hsign; simpl;
    [|discriminate].
  intros [= <- <-]. simpl.
  eexists. exists token. repeat split. simpl. exact Hsign.
Qed.

End RegisterFacts.

(** C4.  For a registration that succeeds, the token in the response,
    verified with the service's secret at any instant before it expires,
    yields the [userId] (the hexadecimal form of [_id]) and the [name] of
    the credential record that the registration stored; presented to the
    gate as "Bearer <token>", it attaches exactly these two to the
    request. *)
Theorem register_token_roundtrip
    (L : Libs) (env : Env) (b : UserSchema.input) (w w' : world)
    (res : response) :
  jwtFaithful L ->
  register env b w = (inr res, w') ->
  exists (u : UserSchema.t) (token : string) (d : Z),
    users w' = users w ++ [u]
    /\ status res = 201%N
    /\ json res = UserBody (UserSchema.name u) (Some (UserSchema.email u)) token
    /\ (JWT_LIFETIME env ≫= timespan) = Some d
    /\ (forall c, c < Token.seconds (now w) + d ->
          exists p,
            Token.verify (Some token) (JWT_SECRET env) c = inr p
            /\ jwt.userId p = toHexString (UserSchema._id u)
            /\ jwt.name p = UserSchema.name u)
    /\ (forall w2, Token.seconds (now w2) < Token.seconds (now w) + d ->
          auth env (Some ("Bearer " +:+ token)) w2
          = (inr (Req.mkUser (toHexString (UserSchema._id u))
                             (UserSchema.name u)), w2)).
Proof.
  intros Hf Hreg.
  destruct (register_success env b w w' res Hreg)
    as (u & token & Hus & _ & _ & _ & _ & -> & Hsign).
  destruct (verify_sign Hf _ _ _ _ _ _ Hsign) as (d & Hd & Hver).
  exists u, token, d. repeat split; try assumption.
  - intros c Hc. eexists. rewrite Hver.
    destruct (Z.leb_spec (Token.seconds (now w) + d) c); [lia|].
    repeat split.
  - intros w2 Hc.
    rewrite auth_accepted_header by (apply (headerRefused_bearer (String " " token))).
    pose proof (bearerToken_of_token token (sign_no_space Hf _ _ _ _ _ _ Hsign))
      as Htok.
    unfold bearerToken in Htok. rewrite Htok, Hver.
    destruct (Z.leb_spec (Token.seconds (now w) + d) (Token.seconds (now w2)));
      [lia|reflexivity].
Qed.

(** ** Ownership on update *)

Section UpdateFacts.
Context {L : Libs}.

(** [createJob] stores the caller as owner, whatever the body says. *)
Lemma createJob_owner (user : Req.user) (b : JobSchema.input)
    (w w' : world) (res : response) :
  createJob user b w = (inr res, w') ->
  exists (j : JobSchema.t) (o : N),
    res = mkResponse 201 (JobBody j)
    /\ castObjectId (Req.userId user) = Some o
    /\ JobSchema.createdBy j = o
    /\ JobSchema._id j = nextId w
    /\ JobSchema.createdAt j = now w
    /\ jobs w' = <[nextId w := j]> (jobs w).
Proof.
  unfold createJob, Job.create. run.
  destruct (castObjectId (Req.userId user)) as [o|] eqn:Ho; simpl.
  - destruct (Job.invalidPaths _) as [|p ps]; simpl; [|discriminate].
    intros [= <- <-]. simpl. eexists. exists o. repeat split.
  - destruct (Job.invalidPaths _); discriminate.
Qed.

Lemma createJob_ignores_createdBy (user : Req.user) (b : JobSchema.input)
    (claimed : option string) (w : world) :
  createJob user
    (JobSchema.mkInput (JobSchema.in_company b) (JobSchema.in_position b)
                       (JobSchema.in_status b) claimed) w
  = createJob user b w.
Proof. reflexivity. Qed.

(** [updateJob] never looks at who calls: its answer and the jobs it
    leaves behind are the same for every caller. *)
Lemma updateJob_owner_blind (user user' : Req.user) (jobId : string)
    (b : JobSchema.input) (w : world) :
  fst (updateJob user jobId b w) = fst (updateJob user' jobId b w)
  /\ jobs (snd (updateJob user jobId b w))
     = jobs (snd (updateJob user' jobId b w)).
Proof.
  unfold updateJob.
  destruct (Js.isEmptyString _ || Js.isEmptyString _); [split; reflexivity|].
  unfold Job.findByIdAndUpdate. run.
  destruct (castObjectId jobId) as [i|]; simpl; [|split; reflexivity].
  destruct (JobSchema.in_createdBy b) as [s|]; simpl;
    [destruct (castObjectId s); simpl; [|split; reflexivity]|];
    (destruct (Job.invalidUpdatePaths b); simpl; [|split; reflexivity]);
    destruct (jobs w !! i); split; reflexivity.
Qed.

(** An update that passes the validators reaches the job with the given
    id whoever owns it, and sets every member the body has, [createdBy]
    included. *)
Lemma updateJob_any_owner (user : Req.user) (jobId : string)
    (b : JobSchema.input) (i : N) (j : JobSchema.t) (w : world) :
  castObjectId jobId = Some i ->
  jobs w !! i = Some j ->
  Js.isEmptyString (JobSchema.in_company b) = false ->
  Js.isEmptyString (JobSchema.in_position b) = false ->
  Job.invalidUpdatePaths b = [] ->
  (forall s, JobSchema.in_createdBy b = Some s -> is_Some (castObjectId s)) ->
  let j' := Job.applyUpdate b (JobSchema.in_createdBy b ≫= castObjectId)
                            (now w) j in
  fst (updateJob user jobId b w) = inr (mkResponse 200 (JobBody j'))
  /\ jobs (snd (updateJob user jobId b w)) = <[i := j']> (jobs w).
Proof.
  intros Hi Hj Hc Hp Hvalid Hcast. unfold updateJob. rewrite Hc, Hp. simpl.
  unfold Job.findByIdAndUpdate. run. rewrite Hi. simpl.
  destruct (JobSchema.in_createdBy b) as [s|]; simpl.
  - destruct (Hcast s eq_refl) as [o Ho]. rewrite Ho. simpl.
    rewrite Hvalid. simpl. rewrite Hj. simpl. split; reflexivity.
  - rewrite Hvalid. simpl. rewrite Hj. simpl. split; reflexivity.
Qed.

Lemma applyUpdate_createdAt (b : JobSchema.input) (o : option N) (t : Z)
    (j : JobSchema.t) :
  JobSchema.createdAt (Job.applyUpdate b o t j) = JobSchema.createdAt j
  /\ JobSchema._id (Job.applyUpdate b o t j) = JobSchema._id j.
Proof. split; reflexivity. Qed.

End UpdateFacts.

(** From here on the handlers run on the sample libraries. *)
#[local] Existing Instance Sample.libs.

(** C1.  Ann's job is in the store under her identifier.  With Bob's
    token, [getJob] and [deleteJob] on its id answer 404 and leave it
    alone, but [updateJob] answers 200 with the job, renamed as Bob
    asked, and stores the change. *)
Theorem updateJob_crosses_tenants :
  jobs Scenario.filed !! 3%N = Some Scenario.annJob
  /\ JobSchema.createdBy Scenario.annJob = 1%N
  /\ castObjectId Scenario.bobId = Some 2%N
  /\ auth Sample.env Scenario.bobHeader Scenario.filed
     = (inr Scenario.bobUser, Scenario.filed)
  /\ respond (fst (Scenario.asBob (fun u => getJob u Scenario.jobId)))
     = Failed 404 (Some "No job with id 000000000000000000000003")
  /\ respond (fst (Scenario.asBob (fun u => deleteJob u Scenario.jobId)))
     = Failed 404 (Some "No job with id 000000000000000000000003")
  /\ respond (fst (Scenario.asBob (fun u => updateJob u Scenario.jobId Scenario.rename)))
     = Sent (mkResponse 200
               (JobBody (JobSchema.mk 3 "Mallory Ltd" "Engineer" "pending" 1
                                      1000000 1000000)))
  /\ jobs (snd (Scenario.asBob (fun u => updateJob u Scenario.jobId Scenario.rename)))
       !! 3%N
     = Some (JobSchema.mk 3 "Mallory Ltd" "Engineer" "pending" 1
                          1000000 1000000).
Proof. vm_compute. repeat split. Qed.

(** C2.  Ann files a job whose body names Bob as [createdBy]: the stored
    record names Ann, the caller.  Ann then updates it with a body whose
    [createdBy] is Bob's identifier: the update succeeds and the stored
    record now names Bob, so that Bob can read it and Ann cannot. *)
Theorem updateJob_rewrites_createdBy :
  let moved :=
    snd (Scenario.asAnn (fun u => updateJob u Scenario.jobId Scenario.reassign)) in
  JobSchema.in_createdBy Scenario.acme = Some Scenario.bobId
  /\ fst Scenario.annFiled = inr (mkResponse 201 (JobBody Scenario.annJob))
  /\ JobSchema.createdBy Scenario.annJob = 1%N
  /\ castObjectId Scenario.annId = Some 1%N
  /\ (JobSchema.createdBy <$> jobs Scenario.filed !! 3%N) = Some 1%N
  /\ respond (fst (Scenario.asAnn
                     (fun u => updateJob u Scenario.jobId Scenario.reassign)))
     = Sent (mkResponse 200
               (JobBody (JobSchema.mk 3 "Acme" "Engineer" "pending" 2
                                      1000000 1000000)))
  /\ (JobSchema.createdBy <$> jobs moved !! 3%N) = Some 2%N
  /\ respond (fst (getJob Scenario.bobUser Scenario.jobId moved))
     = Sent (mkResponse 200
               (JobBody (JobSchema.mk 3 "Acme" "Engineer" "pending" 2
                                      1000000 1000000)))
  /\ respond (fst (getJob Scenario.annUser Scenario.jobId moved))
     = Failed 404 (Some "No job with id 000000000000000000000003").
Proof. vm_compute. repeat split. Qed.

(** ** The sample libraries honour the contract of jsonwebtoken *)

Section SampleFacts.

Lemma occurs_append (c : ascii) (a b : string) :
  Js.occurs c (a +:+ b) = Js.occurs c a || Js.occurs c b.
Proof.
  induction a as [|d a IH]; simpl; [reflexivity|].
  now rewrite IH, orb_assoc.
Qed.

Lemma unbit_bit (b : bool) : Sample.unbit (Sample.bit b) = Some b.
Proof. destruct b; reflexivity. Qed.

Lemma unspell_spell (s : string) : Sample.unspell (Sample.spell s) = Some s.
Proof.
  induction s as [|[b0 b1 b2 b3 b4 b5 b6 b7] s IH]; [reflexivity|].
  cbn [Sample.spell Sample.spellChar Sample.unspell].
  rewrite !unbit_bit, IH. reflexivity.
Qed.

Lemma unspellPos_spellPos (p : positive) :
  Sample.unspellPos (Sample.spellPos p) = Some p.
Proof.
  induction p as [q IH|q IH|]; [| |reflexivity];
    cbn [Sample.spellPos Sample.unspellPos];
    destruct (Sample.spellPos q) as [|a r] eqn:Hq;
    try (destruct q; discriminate Hq);
    rewrite IH; reflexivity.
Qed.

Lemma unspellZ_spellZ (z : Z) : Sample.unspellZ (Sample.spellZ z) = Some z.
Proof.
  destruct z as [|p|p]; [reflexivity| |];
    cbn [Sample.spellZ Sample.unspellZ]; simpl;
    rewrite unspellPos_spellPos; reflexivity.
Qed.

(** The spelled-out forms hold neither dots nor spaces. *)
Lemma occurs_spell (c : ascii) (s : string) :
  Sample.separator c -> Js.occurs c (Sample.spell s) = false.
Proof.
  intros Hc.
  induction s as [|[b0 b1 b2 b3 b4 b5 b6 b7] s IH]; [reflexivity|].
  cbn [Sample.spell Sample.spellChar Js.occurs]. rewrite IH.
  destruct Hc as [-> | ->];
    destruct b0, b1, b2, b3, b4, b5, b6, b7; reflexivity.
Qed.

Lemma occurs_spellPos (c : ascii) (p : positive) :
  Sample.separator c -> Js.occurs c (Sample.spellPos p) = false.
Proof.
  intros Hc. induction p as [q IH|q IH|]; simpl; rewrite ?IH;
    destruct Hc as [-> | ->]; reflexivity.
Qed.

Lemma occurs_spellZ (c : ascii) (z : Z) :
  Sample.separator c -> Js.occurs c (Sample.spellZ z) = false.
Proof.
  intros Hc. destruct z as [|p|p]; simpl; rewrite ?occurs_spellPos by exact Hc;
    destruct Hc as [-> | ->]; reflexivity.
Qed.

Lemma sample_split (k : string) (p : jwt.Payload) :
  Js.split "." (Sample.jwtEncode k p)
  = [Sample.spell k; Sample.spell (jwt.userId p); Sample.spell (jwt.name p);
     Sample.spellZ (jwt.iat p); Sample.spellZ (jwt.exp p)].
Proof.
  assert (Hdot : Sample.separator ".") by (left; reflexivity).
  unfold Sample.jwtEncode.
  rewrite !split_first_lit by (now apply occurs_spell).
  rewrite split_first_lit by (now apply occurs_spellZ).
  rewrite split_whole by (now apply occurs_spellZ).
  reflexivity.
Qed.

Lemma sample_faithful : jwtFaithful Sample.libs.
Proof.
  intros k p. split; [|split].
  - change (jwtDecode k (jwtEncode k p))
      with (Sample.jwtDecode k (Sample.jwtEncode k p)).
    unfold Sample.jwtDecode. rewrite sample_split.
    rewrite !unspell_spell, !unspellZ_spellZ, String.eqb_refl.
    destruct p; reflexivity.
  - change (jwtEncode k p) with (Sample.jwtEncode k p).
    intros Hempty.
    pose proof (sample_split k p) as Hs. rewrite Hempty in Hs.
    discriminate Hs.
  - change (jwtEncode k p) with (Sample.jwtEncode k p).
    assert (Hsp : Sample.separator " ") by (right; reflexivity).
    unfold Sample.jwtEncode.
    rewrite !occurs_append, !occurs_spell, !occurs_spellZ by exact Hsp.
    reflexivity.
Qed.

End SampleFacts.

(** ** The theorems at work on the sample run *)

Lemma auth_unauthenticated_or_attaches_witness :
  let w := snd Scenario.annRegistered in
  Js.startsWith "Basic QW5uOnNlY3JldDE=" "Bearer" = false
  /\ auth Sample.env (Some "Basic QW5uOnNlY3JldDE=") w = (inl authInvalid, w)
  /\ auth Sample.env (Some "Bearer not.a.token") w = (inl authInvalid, w)
  /\ auth Sample.env Scenario.annHeader w = (inr Scenario.annUser, w).
Proof.
  intros w.
  destruct (auth_unauthenticated_or_attaches Sample.libs Sample.env w)
    as (_ & Hshape & Hfail & Hok & _ & _ & _).
  split; [reflexivity|].
  split; [apply Hshape; reflexivity|].
  split.
  - apply (Hfail "Bearer not.a.token" Sample.malformed). vm_compute. reflexivity.
  - apply (Hok ("Bearer " +:+ Scenario.tokenOf (fst Scenario.annRegistered))
               (jwt.mkPayload Scenario.annId "Ann" 1000 2593000));
      vm_compute; reflexivity.
Defined.

(** A header that is not of the form "Bearer <token>" (its scheme is
    glued to other text, or more fields follow the token) authenticates
    when its second field is a valid token. *)
Lemma auth_accepts_other_forms :
  let w := snd Scenario.bobRegistered in
  let token := Scenario.tokenOf (fst Scenario.annRegistered) in
  specBearerForm ("Bearer " +:+ token) = true
  /\ specBearerForm ("BearerX " +:+ token) = false
  /\ auth Sample.env (Some ("BearerX " +:+ token)) w
     = (inr Scenario.annUser, w)
  /\ specBearerForm ("Bearer " +:+ token +:+ " trailing") = false
  /\ auth Sample.env (Some ("Bearer " +:+ token +:+ " trailing")) w
     = (inr Scenario.annUser, w)
  /\ ~ (forall h, specBearerForm h = false ->
          exists e, fst (auth Sample.env (Some h) w) = inl e).
Proof.
  intros w token.
  split; [vm_compute; reflexivity|]. split; [vm_compute; reflexivity|].
  split; [vm_compute; reflexivity|]. split; [vm_compute; reflexivity|].
  split; [vm_compute; reflexivity|].
  intros Hall. destruct (Hall ("BearerX " +:+ token)) as [e He].
  - vm_compute. reflexivity.
  - vm_compute in He. discriminate He.
Qed.

Lemma auth_bearer_prefix_only_witness :
  let w := snd Scenario.annRegistered in
  let token := Scenario.tokenOf (fst Scenario.annRegistered) in
  Js.occurs " " "eyJhbGciOi" = false
  /\ headerRefused (Some "BearereyJhbGciOi") = false
  /\ bearerToken "BearereyJhbGciOi" = None
  /\ auth Sample.env (Some "BearereyJhbGciOi") w = (inl authInvalid, w)
  /\ bearerToken ("Basic " +:+ token) = Some token
  /\ headerRefused (Some ("Basic " +:+ token)) = true
  /\ auth Sample.env (Some ("Basic " +:+ token)) w = (inl authInvalid, w)
  /\ auth Sample.env (Some ("Bearer " +:+ token)) w
     = (inr Scenario.annUser, w).
Proof.
  intros w token.
  destruct (auth_bearer_prefix_only Sample.libs Sample.env w)
    as (_ & Hrun & Hnospace & _ & _ & _ & Hiff & Hother).
  destruct (Hnospace "eyJhbGciOi" eq_refl) as (Hshape & Htok & _ & Hauth).
  split; [reflexivity|]. split; [exact Hshape|]. split; [exact Htok|].
  split; [exact Hauth|]. split; [vm_compute; reflexivity|].
  destruct (Hother ("Basic " +:+ token)) as [Hrefused Hno].
  { intros rest Heq. vm_compute in Heq. discriminate Heq. }
  split; [exact Hrefused|]. split; [exact Hno|].
  rewrite (Hrun ("Bearer " +:+ token)).
  - vm_compute. reflexivity.
  - apply Hiff. exists (" " +:+ token). reflexivity.
Defined.

Lemma register_token_roundtrip_witness :
  exists (res : response) (w' : world),
    register Sample.env Scenario.ann Sample.start = (inr res, w')
    /\ exists (u : UserSchema.t) (token : string) (d : Z),
         users w' = users Sample.start ++ [u]
         /\ status res = 201%N
         /\ json res
            = UserBody (UserSchema.name u) (Some (UserSchema.email u)) token
         /\ (JWT_LIFETIME Sample.env ≫= timespan) = Some d
         /\ (forall c, c < Token.seconds (now Sample.start) + d ->
               exists p,
                 Token.verify (Some token) (JWT_SECRET Sample.env) c = inr p
                 /\ jwt.userId p = toHexString (UserSchema._id u)
                 /\ jwt.name p = UserSchema.name u)
         /\ (forall w2,
               Token.seconds (now w2) < Token.seconds (now Sample.start) + d ->
               auth Sample.env (Some ("Bearer " +:+ token)) w2
               = (inr (Req.mkUser (toHexString (UserSchema._id u))
                                  (UserSchema.name u)), w2)).
Proof.
  exists (match fst Scenario.annRegistered with
          | inr res => res
          | inl _ => mkResponse 0 EmptyBody
          end), (snd Scenario.annRegistered).
  split; [vm_compute; reflexivity|].
  apply (register_token_roundtrip Sample.libs Sample.env Scenario.ann
           Sample.start _ _ sample_faithful).
  vm_compute. reflexivity.
Defined.

Lemma login_failures_indistinguishable_witness :
  let w := snd Scenario.bobRegistered in
  respond (fst (login Sample.env
                  (Req.mkLogin (Some "carol@z.net") (Some "secret1")) w))
    = Failed 401 (Some "Invalid Credentials")
  /\ respond (fst (login Sample.env
                     (Req.mkLogin (Some "ann@x.com") (Some "secret2")) w))
     = Failed 401 (Some "Invalid Credentials").
Proof.
  intros w.
  destruct (login_failures_indistinguishable Sample.libs Sample.env w w
              "carol@z.net" "secret1" "ann@x.com" "secret2"
              (UserSchema.mk 1 "Ann" "ann@x.com"
                 (bcryptHash "secret1" (genSalt 10 0)) 1000000 1000000))
    as (_ & H1 & H2); try discriminate; try (vm_compute; reflexivity).
  split; [exact H1|exact H2].
Defined.

Lemma login_empty_field_BadRequest_witness :
  let w := snd Scenario.bobRegistered in
  login Sample.env (Req.mkLogin (Some "ann@x.com") (Some EmptyString)) w
    = (inl (BadRequestError "Please provide email and password"), w)
  /\ login Sample.env (Req.mkLogin (Some EmptyString) (Some "secret1")) w
     = (inl (BadRequestError "Please provide email and password"), w).
Proof.
  intros w. split.
  - apply (login_empty_field_BadRequest Sample.libs Sample.env
             (Req.mkLogin (Some "ann@x.com") (Some EmptyString)) w).
    right. reflexivity.
  - apply (login_empty_field_BadRequest Sample.libs Sample.env
             (Req.mkLogin (Some EmptyString) (Some "secret1")) w).
    left. reflexivity.
Defined.

Lemma updateJob_empty_field_BadRequest_witness :
  let emptied := JobSchema.mkInput (Some EmptyString) (Some "Director")
                                   (Some "interview") None in
  let promoted := JobSchema.mkInput None None (Some "interview") None in
  respond (fst (updateJob Scenario.annUser Scenario.jobId emptied Scenario.filed))
    = Failed 400 (Some "Company or Position fields cannot be empty")
  /\ (forall m,
        fst (updateJob Scenario.annUser Scenario.jobId promoted Scenario.filed)
        <> inl (BadRequestError m)).
Proof.
  intros emptied promoted.
  destruct (updateJob_empty_field_BadRequest Sample.libs Scenario.annUser
              Scenario.jobId emptied Scenario.filed) as [Hbad _].
  destruct (updateJob_empty_field_BadRequest Sample.libs Scenario.annUser
              Scenario.jobId promoted Scenario.filed) as [_ Hpass].
  split.
  - apply Hbad. left. reflexivity.
  - apply (Hpass eq_refl eq_refl).
Defined.

Lemma deleteJob_twice_witness :
  let once := deleteJob Scenario.annUser Scenario.jobId Scenario.filed in
  let twice := deleteJob Scenario.annUser Scenario.jobId (snd once) in
  jobs Scenario.filed !! 3%N = Some Scenario.annJob
  /\ respond (fst once) = Sent (mkResponse 200 EmptyBody)
  /\ respond (fst twice)
     = Failed 404 (Some "No job with id 000000000000000000000003").
Proof.
  intros once twice.
  assert (Hj : jobs Scenario.filed !! 3%N = Some Scenario.annJob)
    by (vm_compute; reflexivity).
  destruct (deleteJob_twice Sample.libs Scenario.annUser Scenario.jobId
              3%N 1%N Scenario.annJob Scenario.filed)
    as (H1 & _ & H2 & _ & _);
    try (vm_compute; reflexivity).
  split; [exact Hj|]. split; [exact H1|exact H2].
Defined.

Lemma getAllJobs_own_sorted_witness :
  castObjectId Scenario.annId = Some 1%N
  /\ exists l : list JobSchema.t,
       fst (getAllJobs Scenario.annUser Scenario.busy)
         = inr (mkResponse 200 (JobsBody l (length l)))
       /\ StronglySorted Job.byCreatedAt l
       /\ l ≡ₚ filter (fun j => JobSchema.createdBy j = 1%N)
                 (map_to_list (jobs Scenario.busy)).*2.
Proof.
  split; [vm_compute; reflexivity|].
  destruct (getAllJobs_own_sorted Sample.libs Scenario.annUser 1%N
              Scenario.busy) as (l & Hres & Hsorted & Hperm & _).
  - vm_compute. reflexivity.
  - exists l. split; [exact Hres|]. split; [exact Hsorted|exact Hperm].
Defined.

(** ** The run, step by step *)

Example split_examples :
  Js.split " " "Bearer abc" = ["Bearer"; "abc"]
  /\ Js.split " " "Bearer" = ["Bearer"]
  /\ Js.split " " "Bearer  abc" = ["Bearer"; ""; "abc"]
  /\ Js.split " " "" = [""]
  /\ Js.split " " "Bearer abc def" = ["Bearer"; "abc"; "def"].
Proof. repeat split. Qed.

Example email_examples :
  map (Regex.test UserSchema.emailPattern)
      ["ann@x.com"; "a.b@c-d.example"; "x@[1.22.333.4]";
       "a@b.c"; "a..b@c.de"; "a b@c.de"; "@c.de"; "ann"]
  = [true; true; true; false; false; false; false; false].
Proof. vm_compute. reflexivity. Qed.

Example register_validates :
  fst (register Sample.env
         (UserSchema.mkInput (Some "Al") (Some "al@x") (Some "short"))
         Sample.start)
    = inl (ValidationError {["name"; "email"; "password"]})
  /\ fst (register Sample.env Scenario.ann (snd Scenario.annRegistered))
     = inl (DuplicateKeyError "email").
Proof. vm_compute. repeat split. Qed.

(** The end-to-end scenario of the specification: register, file a job,
    list it, delete it, look it up again. *)
Example end_to_end :
  let ann := Scenario.annUser in
  let w1 := snd Scenario.bobRegistered in
  let created := createJob ann (JobSchema.mkInput (Some "Acme") (Some "Engineer")
                                                  None None) w1 in
  let listed := getAllJobs ann (snd created) in
  let deleted := deleteJob ann Scenario.jobId (snd listed) in
  let looked := getJob ann Scenario.jobId (snd deleted) in
  fst created = inr (mkResponse 201 (JobBody Scenario.annJob))
  /\ fst listed = inr (mkResponse 200 (JobsBody [Scenario.annJob] 1))
  /\ fst deleted = inr (mkResponse 200 EmptyBody)
  /\ respond (fst looked)
     = Failed 404 (Some "No job with id 000000000000000000000003").
Proof. vm_compute. repeat split. Qed.

Example list_is_per_owner :
  fst (getAllJobs Scenario.annUser Scenario.busy)
    = inr (mkResponse 200 (JobsBody [Scenario.annJob; Scenario.globexJob] 2))
  /\ fst (getAllJobs Scenario.bobUser Scenario.busy)
     = inr (mkResponse 200
              (JobsBody [JobSchema.mk 4 "Initech" "Tester" "declined" 2
                                      1000000 1000000] 1)).
Proof. vm_compute. repeat split. Qed.

Example job_requests_validate :
  let ann := Scenario.annUser in
  let w := Scenario.filed in
  fst (createJob ann (JobSchema.mkInput None (Some "Engineer") (Some "hired") None) w)
    = inl (ValidationError {["company"; "status"]})
  /\ fst (updateJob ann Scenario.jobId
            (JobSchema.mkInput None None (Some "hired") None) w)
     = inl (ValidationError {["status"]})
  /\ fst (updateJob ann Scenario.jobId
            (JobSchema.mkInput None None None (Some "bob")) w)
     = inl (CastError "createdBy")
  /\ fst (updateJob ann "3" Scenario.rename w) = inl (CastError "_id")
  /\ fst (getJob ann "3" w) = inl (CastError "_id")
  /\ respond (fst (updateJob ann "00000000000000000000000f" Scenario.rename w))
     = Failed 404 (Some "No job with id 00000000000000000000000f")
  /\ fst (updateJob ann Scenario.jobId
            (JobSchema.mkInput None None (Some "interview") None)
            (Scenario.tick 250 w))
     = inr (mkResponse 200
              (JobBody (JobSchema.mk 3 "Acme" "Engineer" "interview" 1
                                     1000000 1000250))).
Proof. vm_compute. repeat split. Qed.

(** A filter of which neither member casts is refused for its
    [createdBy]; one of which only the id does not cast, for its [_id]. *)
Example castFilter_examples :
  Job.castFilter (Job.mkConditions "no-id" "no-user")
    = inl (CastError "createdBy")
  /\ Job.castFilter (Job.mkConditions "no-id" Scenario.annId)
     = inl (CastError "_id")
  /\ Job.castFilter (Job.mkConditions Scenario.jobId Scenario.annId)
     = inr (3%N, 1%N).
Proof. vm_compute. repeat split. Qed.

(** A header whose scheme is glued to other text still gets through when
    its second field is a valid token. *)
Example glued_prefix_accepted :
  let w := snd Scenario.bobRegistered in
  auth Sample.env
       (Some ("BearerX " +:+ Scenario.tokenOf (fst Scenario.annRegistered))) w
    = (inr Scenario.annUser, w)
  /\ auth Sample.env
          (Some ("Bearer " +:+ Scenario.tokenOf (fst Scenario.annRegistered)
                  +:+ " trailing")) w
     = (inr Scenario.annUser, w)
  /\ auth Sample.env
          (Some ("Bearer  " +:+ Scenario.tokenOf (fst Scenario.annRegistered))) w
     = (inl authInvalid, w)
  /\ auth Sample.env Scenario.annHeader
          (Scenario.tick 2592000000 w)
     = (inl authInvalid, Scenario.tick 2592000000 w).
Proof. vm_compute. repeat split. Qed.

(** * Further properties of the handlers *)

(** ** Registration *)

Section RegisterMore.
Context {L : Libs} (env : Env).

Lemma sign_ready (uid nm : string) (clock : Z) :
  signerReady env <->
  is_Some (Token.sign uid nm (JWT_SECRET env) (JWT_LIFETIME env) clock).
Proof.
  unfold signerReady, Token.sign.
  destruct (Token.usableSecret (JWT_SECRET env)) as [k|];
    destruct (JWT_LIFETIME env) as [span|]; simpl;
    try destruct (timespan span); split;
    try (intros [[? ?] [? ?]]; discriminate);
    try (intros [? ?]; discriminate); eauto.
Qed.

(** The credential record a valid body turns into. *)
Lemma register_run (b : UserSchema.input) (w : world) :
  UserSchema.invalidPaths b = [] ->
  let em := default EmptyString (UserSchema.in_email b) in
  let u := UserSchema.mk (nextId w)
             (default EmptyString (UserSchema.in_name b)) em
             (bcryptHash (default EmptyString (UserSchema.in_password b))
                         (genSalt 10 (entropy w)))
             (now w) (now w) in
  let stored := mkWorld (users w ++ [u]) (jobs w) (N.succ (nextId w)) (now w)
                        (N.succ (entropy w)) (trace w ++ [CallUserCreate em]) in
  register env b w =
    if existsb (fun v => String.eqb (UserSchema.email v) em) (users w)
    then (inl (DuplicateKeyError "email"),
          mkWorld (users w) (jobs w) (N.succ (nextId w)) (now w)
                  (N.succ (entropy w)) (trace w ++ [CallUserCreate em]))
    else match Token.sign (toHexString (nextId w)) (UserSchema.name u)
                          (JWT_SECRET env) (JWT_LIFETIME env)
                          (Token.seconds (now w)) with
         | Some token =>
             (inr (mkResponse 201
                     (UserBody (UserSchema.name u) (Some em) token)), stored)
         | None => (inl JwtSignError, stored)
         end.
Proof.
  intros Hvalid em u stored. subst em u stored.
  unfold register, User.create, User.createJWT, User.preSave. run.
  rewrite Hvalid. simpl.
  destruct (existsb _ (users w)); simpl; [reflexivity|].
  destruct (Token.sign _ _ _ _ _); reflexivity.
Qed.

End RegisterMore.

(** X1.  For a body that carries name, e-mail and password and no
    [_id], [createdAt] or [updatedAt]: a registration whose fields pass
    the schema, whose e-mail is not yet taken and for which a token can
    be signed answers 201 with the name and e-mail as sent, and appends
    one credential record.  The record carries the ObjectId the
    generator yields (the generator moves on by one), the instant of the
    request as both timestamps, and as password the bcrypt hash under
    the ten-round salt that [genSalt(10)] makes of the draw the request
    takes from the entropy of the world (the entropy moves on by one
    draw).  Jobs are left alone. *)
Theorem register_stores_hashed
    (L : Libs) (env : Env) (b : UserSchema.input) (w : world) :
  UserSchema.invalidPaths b = [] ->
  existsb (fun v => String.eqb (UserSchema.email v)
                      (default EmptyString (UserSchema.in_email b)))
          (users w) = false ->
  signerReady env ->
  exists token,
    fst (register env b w)
      = inr (mkResponse 201
               (UserBody (default EmptyString (UserSchema.in_name b))
                         (Some (default EmptyString (UserSchema.in_email b)))
                         token))
    /\ users (snd (register env b w))
       = users w ++
         [UserSchema.mk (nextId w)
            (default EmptyString (UserSchema.in_name b))
            (default EmptyString (UserSchema.in_email b))
            (bcryptHash (default EmptyString (UserSchema.in_password b))
                        (genSalt 10 (entropy w)))
            (now w) (now w)]
    /\ jobs (snd (register env b w)) = jobs w
    /\ entropy (snd (register env b w)) = N.succ (entropy w)
    /\ nextId (snd (register env b w)) = N.succ (nextId w).
Proof.
  intros Hvalid Hfree Hready.
  rewrite (register_run env b w Hvalid), Hfree.
  destruct (proj1 (sign_ready env (toHexString (nextId w))
                     (default EmptyString (UserSchema.in_name b))
                     (Token.seconds (now w))) Hready) as [token Hsign].
  simpl in *. rewrite Hsign. exists token. repeat split.
Qed.

Lemma guard_nil {A} (c : bool) (x : A) :
  (if c then [] else [x]) = [] -> c = true.
Proof. destruct c; [reflexivity|discriminate]. Qed.

Lemma present_Some (v : option string) :
  UserSchema.present v = true -> exists s, v = Some s /\ s <> EmptyString.
Proof.
  destruct v as [[|c s]|]; try discriminate.
  intros _. exists (String c s). split; [reflexivity|discriminate].
Qed.

(** What the validators of [UserSchema] let through. *)
Lemma user_valid (b : UserSchema.input) :
  UserSchema.invalidPaths b = [] ->
  exists nm em pw,
    b = UserSchema.mkInput (Some nm) (Some em) (Some pw)
    /\ (3 <= String.length nm <= 50)%nat
    /\ Regex.test UserSchema.emailPattern em = true
    /\ (6 <= String.length pw)%nat.
Proof.
  unfold UserSchema.invalidPaths. intros Hvalid.
  apply app_eq_nil in Hvalid as [Hn Hrest].
  apply app_eq_nil in Hrest as [He Hp].
  apply guard_nil in Hn, He, Hp.
  apply andb_true_iff in Hn as [Hn Hn50]. apply andb_true_iff in Hn as [Hn Hn3].
  apply andb_true_iff in He as [He Hre]. apply andb_true_iff in Hp as [Hp Hp6].
  destruct (present_Some _ Hn) as (nm & Hnm & _).
  destruct (present_Some _ He) as (em & Hem & _).
  destruct (present_Some _ Hp) as (pw & Hpw & _).
  apply Nat.leb_le in Hn3, Hn50, Hp6.
  rewrite Hnm in Hn3, Hn50. rewrite Hem in Hre. rewrite Hpw in Hp6.
  destruct b as [bn be bp]. simpl in Hnm, Hem, Hpw. subst bn be bp.
  exists nm, em, pw. repeat split; assumption.
Qed.

(** X2.  A registration succeeds only if the name has 3 to 50
    characters, the e-mail matches the pattern of the schema, the
    password has at least 6 characters, no stored record has the same
    e-mail, and the environment lets a token be signed. *)
Theorem register_success_requires
    (L : Libs) (env : Env) (b : UserSchema.input) (w w' : world)
    (res : response) :
  register env b w = (inr res, w') ->
  exists nm em pw,
    b = UserSchema.mkInput (Some nm) (Some em) (Some pw)
    /\ (3 <= String.length nm <= 50)%nat
    /\ Regex.test UserSchema.emailPattern em = true
    /\ (6 <= String.length pw)%nat
    /\ (forall v, v ∈ users w -> UserSchema.email v <> em)
    /\ signerReady env.
Proof.
  intros Hreg.
  destruct (register_success env b w w' res Hreg)
    as (u & token & _ & _ & Hvalid & _ & _ & _ & Hsign).
  rewrite (register_run env b w Hvalid) in Hreg.
  destruct (existsb _ (users w)) eqn:Hex; [discriminate|].
  destruct (user_valid b Hvalid) as (nm & em & pw & -> & Hn & He & Hp).
  exists nm, em, pw. simpl in Hex.
  split; [reflexivity|]. split; [exact Hn|]. split; [exact He|].
  split; [exact Hp|]. split.
  - intros v Hin Heq.
    assert (Htrue : existsb (fun v => String.eqb (UserSchema.email v) em)
                            (users w) = true).
    { apply existsb_exists. exists v. split.
      - now apply list_elem_of_In.
      - rewrite Heq. apply String.eqb_refl. }
    congruence.
  - eapply sign_ready. rewrite Hsign. eauto.
Qed.

Lemma email_taken (em : string) (us : list UserSchema.t) :
  existsb (fun v => String.eqb (UserSchema.email v) em) us = true <->
  exists v, v ∈ us /\ UserSchema.email v = em.
Proof.
  rewrite existsb_exists. split; intros (v & Hin & Heq); exists v.
  - split; [now apply list_elem_of_In|now apply String.eqb_eq].
  - split; [now apply list_elem_of_In|now apply String.eqb_eq].
Qed.

Lemma register_rejects_aux {L : Libs} (env : Env) (b : UserSchema.input)
    (w : world) :
  UserSchema.invalidPaths b <> [] ->
  users (snd (register env b w)) = users w.
Proof.
  intros Hbad. unfold register, User.create. run.
  destruct (UserSchema.invalidPaths b) as [|p ps]; [contradiction|].
  reflexivity.
Qed.

(** X3.  For a body that carries no [_id], [createdAt] or
    [updatedAt]: a registration that fails a validator of the schema
    throws a [ValidationError] whose paths are exactly the failing ones
    (as a set, in no particular order); nothing is stored and no salt
    is drawn, so no hash was computed. *)
Theorem register_rejects_invalid
    (L : Libs) (env : Env) (b : UserSchema.input) (w : world) :
  UserSchema.invalidPaths b <> [] ->
  exists ps,
    fst (register env b w) = inl (ValidationError ps)
    /\ (forall p, p ∈ ps <-> p ∈ UserSchema.invalidPaths b)
    /\ users (snd (register env b w)) = users w
    /\ jobs (snd (register env b w)) = jobs w
    /\ entropy (snd (register env b w)) = entropy w.
Proof.
  intros Hbad. unfold register, User.create. run.
  destruct (UserSchema.invalidPaths b) as [|p ps]; [contradiction|].
  eexists. split; [reflexivity|]. split; [|repeat split].
  intros q. set_solver.
Qed.

(** X4.  A valid registration whose e-mail a stored record already has
    throws the duplicate-key error of the unique index, and the
    collections stay as they were. *)
Theorem register_rejects_duplicate
    (L : Libs) (env : Env) (b : UserSchema.input) (w : world)
    (v : UserSchema.t) :
  UserSchema.invalidPaths b = [] ->
  v ∈ users w ->
  Some (UserSchema.email v) = UserSchema.in_email b ->
  fst (register env b w) = inl (DuplicateKeyError "email")
  /\ users (snd (register env b w)) = users w
  /\ jobs (snd (register env b w)) = jobs w.
Proof.
  intros Hvalid Hin Hem. rewrite (register_run env b w Hvalid).
  assert (Htaken : existsb (fun u => String.eqb (UserSchema.email u)
                      (default EmptyString (UserSchema.in_email b)))
                    (users w) = true).
  { apply email_taken. exists v. split; [exact Hin|].
    rewrite <- Hem. reflexivity. }
  rewrite Htaken. repeat split.
Qed.

(** X5.  When the environment does not let a token be signed (no
    secret, or a lifetime that is not a time span), a registration that
    is otherwise fine throws, but only after the credential record was
    stored: the account exists, and registering again with the same body
    answers with the duplicate-key error. *)
Theorem register_unsigned_keeps_user
    (L : Libs) (env : Env) (b : UserSchema.input) (w : world) :
  UserSchema.invalidPaths b = [] ->
  existsb (fun v => String.eqb (UserSchema.email v)
                      (default EmptyString (UserSchema.in_email b)))
          (users w) = false ->
  ~ signerReady env ->
  fst (register env b w) = inl JwtSignError
  /\ (exists u, users (snd (register env b w)) = users w ++ [u]
                /\ Some (UserSchema.email u) = UserSchema.in_email b)
  /\ fst (register env b (snd (register env b w)))
     = inl (DuplicateKeyError "email").
Proof.
  intros Hvalid Hfree Hnot.
  pose proof (register_run env b w Hvalid) as Hrun. simpl in Hrun.
  rewrite Hfree in Hrun.
  destruct (Token.sign _ _ _ _ _) as [token|] eqn:Hsign.
  { exfalso. apply Hnot. eapply sign_ready. rewrite Hsign. eauto. }
  rewrite Hrun. simpl.
  destruct (user_valid b Hvalid) as (nm & em & pw & -> & _).
  split; [reflexivity|]. split; [eexists; split; reflexivity|].
  rewrite (register_run env _ _ Hvalid). simpl.
  rewrite existsb_app. simpl. rewrite String.eqb_refl, orb_true_r.
  reflexivity.
Qed.

(** ** Logging in *)

Section LoginMore.
Context {L : Libs} (env : Env).

Lemma login_run (e p : string) (w : world) :
  e <> EmptyString -> p <> EmptyString ->
  let looked := mkWorld (users w) (jobs w) (nextId w) (now w) (entropy w)
                        (trace w ++ [CallUserFindOne e]) in
  login env (Req.mkLogin (Some e) (Some p)) w =
    match List.find (fun u => String.eqb (UserSchema.email u) e) (users w) with
    | None => (inl invalidCredentials, looked)
    | Some u =>
        let compared :=
          mkWorld (users w) (jobs w) (nextId w) (now w) (entropy w)
                  ((trace w ++ [CallUserFindOne e])
                   ++ [CallComparePassword p (UserSchema.password u)]) in
        if bcryptCompare p (UserSchema.password u) then
          match Token.sign (toHexString (UserSchema._id u)) (UserSchema.name u)
                           (JWT_SECRET env) (JWT_LIFETIME env)
                           (Token.seconds (now w)) with
          | Some token =>
              (inr (mkResponse 200 (UserBody (UserSchema.name u) None token)),
               compared)
          | None => (inl JwtSignError, compared)
          end
        else (inl invalidCredentials, compared)
    end.
Proof.
  intros He Hp. destruct e as [|c e]; [contradiction|].
  destruct p as [|d p]; [contradiction|].
  unfold login, User.findOne, User.comparePassword, User.createJWT. run.
  destruct (List.find _ (users w)) as [u|]; simpl; [|reflexivity].
  destruct (bcryptCompare _ _); simpl; [|reflexivity].
  destruct (Token.sign _ _ _ _ _); reflexivity.
Qed.

(** [login] only reads: whatever the body, it leaves the collections,
    the generators and the clock as they were. *)
Lemma login_reads_only (b : Req.login) (w : world) :
  users (snd (login env b w)) = users w
  /\ jobs (snd (login env b w)) = jobs w
  /\ nextId (snd (login env b w)) = nextId w
  /\ entropy (snd (login env b w)) = entropy w
  /\ now (snd (login env b w)) = now w.
Proof.
  destruct (Js.falsy (Req.email b) || Js.falsy (Req.password b)) eqn:Hf.
  - rewrite (login_missing_field env b w Hf). repeat split.
  - apply orb_false_iff in Hf as [He Hp].
    destruct b as [[e|] [p|]]; try discriminate. simpl in He, Hp.
    rewrite login_run by (intros ->; discriminate).
    destruct (List.find _ (users w)) as [u|]; simpl; [|repeat split].
    destruct (bcryptCompare _ _); [|repeat split].
    destruct (Token.sign _ _ _ _ _); repeat split.
Qed.

End LoginMore.

Lemma find_last_added {A} (f : A -> bool) (l : list A) (x : A) :
  existsb f l = false -> f x = true -> List.find f (l ++ [x]) = Some x.
Proof.
  induction l as [|y l IH]; simpl; intros Hno Hx.
  - now rewrite Hx.
  - apply orb_false_iff in Hno as [Hy Hl]. rewrite Hy. now apply IH.
Qed.

(** X6.  After a registration has succeeded, logging in with the same
    e-mail and password succeeds at any later time, as long as the
    credential records are those the registration left: the answer is
    200 with the registered name, no e-mail, and a token.  This needs of
    bcryptjs only that a password compares equal to its own hash. *)
Theorem login_after_register
    (L : Libs) (env : Env) (b : UserSchema.input) (w w' w2 : world)
    (res : response) :
  bcryptFaithful L ->
  register env b w = (inr res, w') ->
  users w2 = users w' ->
  exists nm token,
    UserSchema.in_name b = Some nm
    /\ fst (login env (Req.mkLogin (UserSchema.in_email b)
                                   (UserSchema.in_password b)) w2)
       = inr (mkResponse 200 (UserBody nm None token)).
Proof.
  intros Hbcrypt Hreg Husers.
  destruct (register_success env b w w' res Hreg)
    as (_ & _ & _ & _ & Hvalid & _).
  destruct (user_valid b Hvalid) as (nm & em & pw & -> & Hn & _ & Hp).
  rewrite (register_run env _ w Hvalid) in Hreg. simpl in Hreg.
  destruct (existsb _ (users w)) eqn:Hex; [discriminate|].
  destruct (Token.sign _ _ _ _ (Token.seconds (now w))) as [t0|] eqn:Hs0;
    [|discriminate].
  assert (Hready : signerReady env).
  { eapply sign_ready. rewrite Hs0. eauto. }
  injection Hreg as _ Hw'. subst w'. simpl in Husers.
  exists nm. simpl.
  assert (Hem : em <> EmptyString).
  { intros ->. unfold UserSchema.invalidPaths in Hvalid. simpl in Hvalid.
    destruct (_ && _)%bool in Hvalid; discriminate. }
  assert (Hpw : pw <> EmptyString) by (intros ->; simpl in Hp; lia).
  rewrite (login_run env em pw w2 Hem Hpw), Husers.
  rewrite (find_last_added _ _ _ Hex) by (simpl; apply String.eqb_refl).
  simpl. rewrite Hbcrypt.
  destruct (proj1 (sign_ready env (toHexString (nextId w)) nm
                     (Token.seconds (now w2))) Hready) as [token Hsign].
  rewrite Hsign. exists token. split; reflexivity.
Qed.

(** X7.  The token of a successful login verifies, until it expires, to
    the [_id] (in hexadecimal) and the [name] of the credential record
    whose e-mail was given, and the gate attaches these two when the
    token is presented as "Bearer <token>"; the response carries that
    record's name and no e-mail. *)
Theorem login_token_roundtrip
    (L : Libs) (env : Env) (b : Req.login) (w w' : world) (res : response) :
  jwtFaithful L ->
  login env b w = (inr res, w') ->
  exists (u : UserSchema.t) (token : string) (d : Z),
    u ∈ users w
    /\ Some (UserSchema.email u) = Req.email b
    /\ res = mkResponse 200 (UserBody (UserSchema.name u) None token)
    /\ (JWT_LIFETIME env ≫= timespan) = Some d
    /\ (forall c, c < Token.seconds (now w) + d ->
          exists p,
            Token.verify (Some token) (JWT_SECRET env) c = inr p
            /\ jwt.userId p = toHexString (UserSchema._id u)
            /\ jwt.name p = UserSchema.name u)
    /\ (forall w2, Token.seconds (now w2) < Token.seconds (now w) + d ->
          auth env (Some ("Bearer " +:+ token)) w2
          = (inr (Req.mkUser (toHexString (UserSchema._id u))
                             (UserSchema.name u)), w2)).
Proof.
  intros Hf Hlog.
  destruct (Js.falsy (Req.email b) || Js.falsy (Req.password b)) eqn:Hfalsy.
  { rewrite (login_missing_field env b w Hfalsy) in Hlog. discriminate. }
  apply orb_false_iff in Hfalsy as [He Hp].
  destruct b as [[e|] [p|]]; try discriminate. simpl in He, Hp.
  rewrite login_run in Hlog by (intros ->; discriminate).
  destruct (List.find _ (users w)) as [u|] eqn:Hfind; [|discriminate].
  simpl in Hlog.
  destruct (bcryptCompare _ _); [|discriminate].
  destruct (Token.sign _ _ _ _ _) as [token|] eqn:Hsign; [|discriminate].
  injection Hlog as <- _.
  destruct (find_some _ _ Hfind) as [Hin Heq]. apply String.eqb_eq in Heq.
  destruct (verify_sign Hf _ _ _ _ _ _ Hsign) as (d & Hd & Hver).
  exists u, token, d.
  split; [now apply list_elem_of_In|]. split; [simpl; now rewrite Heq|].
  split; [reflexivity|]. split; [exact Hd|]. split.
  - intros c Hc. eexists. rewrite Hver.
    destruct (Z.leb_spec (Token.seconds (now w) + d) c); [lia|].
    repeat split.
  - intros w2 Hc.
    rewrite auth_accepted_header
      by (apply (headerRefused_bearer (String " " token))).
    pose proof (bearerToken_of_token token (sign_no_space Hf _ _ _ _ _ _ Hsign))
      as Htok.
    unfold bearerToken in Htok. rewrite Htok, Hver.
    destruct (Z.leb_spec (Token.seconds (now w) + d) (Token.seconds (now w2)));
      [lia|reflexivity].
Qed.

(** ** Filing, reading, changing and deleting jobs *)

Section JobMore.
Context {L : Libs}.

(** The body as [createJob] hands it to the model: the caller's id is
    written over [createdBy]. *)
Lemma createJob_run (user : Req.user) (b : JobSchema.input) (w : world) :
  let b' := JobSchema.mkInput (JobSchema.in_company b) (JobSchema.in_position b)
              (JobSchema.in_status b) (Some (Req.userId user)) in
  let called := trace w ++ [CallJobCreate (Some (Req.userId user))] in
  createJob user b w =
    match Job.invalidPaths b', castObjectId (Req.userId user) with
    | [], Some o =>
        let j := JobSchema.mk (nextId w)
                   (default EmptyString (JobSchema.in_company b))
                   (default EmptyString (JobSchema.in_position b))
                   (default JobSchema.statusDefault (JobSchema.in_status b))
                   o (now w) (now w) in
        (inr (mkResponse 201 (JobBody j)),
         mkWorld (users w) (<[nextId w := j]> (jobs w)) (N.succ (nextId w))
                 (now w) (entropy w) called)
    | [], None =>
        (inl (ValidationError {["createdBy"]}),
         mkWorld (users w) (jobs w) (N.succ (nextId w)) (now w) (entropy w)
                 called)
    | ps, _ =>
        (inl (ValidationError (list_to_set ps)),
         mkWorld (users w) (jobs w) (N.succ (nextId w)) (now w) (entropy w)
                 called)
    end.
Proof.
  unfold createJob, Job.create. run.
  destruct (Job.invalidPaths _) as [|p ps];
    destruct (castObjectId (Req.userId user)); reflexivity.
Qed.

Lemma job_valid (b : JobSchema.input) :
  Job.invalidPaths b = [] <->
  (exists c, JobSchema.in_company b = Some c /\ c <> EmptyString
             /\ (String.length c <= 50)%nat)
  /\ (exists p, JobSchema.in_position b = Some p /\ p <> EmptyString
                /\ (String.length p <= 100)%nat)
  /\ (forall s, JobSchema.in_status b = Some s -> JobSchema.inEnum s = true)
  /\ (exists u o, JobSchema.in_createdBy b = Some u /\ castObjectId u = Some o).
Proof.
  unfold Job.invalidPaths. split.
  - intros Hvalid.
    apply app_eq_nil in Hvalid as [Hc Hrest].
    apply app_eq_nil in Hrest as [Hp Hrest].
    apply app_eq_nil in Hrest as [Hs Ho].
    apply guard_nil in Hc, Hp.
    apply andb_true_iff in Hc as [Hc Hc50]. apply andb_true_iff in Hp as [Hp Hp100].
    apply Nat.leb_le in Hc50, Hp100.
    destruct (present_Some _ Hc) as (c & Hceq & Hcne).
    destruct (present_Some _ Hp) as (p & Hpeq & Hpne).
    rewrite Hceq in Hc50. rewrite Hpeq in Hp100.
    split; [exists c; auto|]. split; [exists p; auto|]. split.
    + intros s Hseq. rewrite Hseq in Hs.
      destruct (JobSchema.inEnum s); [reflexivity|discriminate].
    + destruct (JobSchema.in_createdBy b) as [u|]; [|discriminate].
      destruct (castObjectId u) as [o|] eqn:Hcast; [|discriminate].
      exists u, o. auto.
  - intros ((c & Hc & Hcne & Hc50) & (p & Hp & Hpne & Hp100) & Hs
            & (u & o & Hu & Ho)).
    rewrite Hc, Hp, Hu, Ho. simpl.
    destruct c as [|a c]; [contradiction|].
    destruct p as [|a' p]; [contradiction|].
    apply Nat.leb_le in Hc50, Hp100. simpl in Hc50, Hp100 |- *.
    rewrite Hc50, Hp100. simpl.
    destruct (JobSchema.in_status b) as [s|]; [|reflexivity].
    now rewrite (Hs s eq_refl).
Qed.

Lemma getAllJobs_run (user : Req.user) (w : world) :
  getAllJobs user w =
    let called := mkWorld (users w) (jobs w) (nextId w) (now w) (entropy w)
                          (trace w ++ [CallJobFind (Req.userId user)]) in
    match castObjectId (Req.userId user) with
    | Some o =>
        let l := Job.sort (Job.ownedBy o (map_to_list (jobs w)).*2) in
        (inr (mkResponse 200 (JobsBody l (length l))), called)
    | None => (inl (CastError "createdBy"), called)
    end.
Proof.
  unfold getAllJobs, Job.find. run.
  destruct (castObjectId (Req.userId user)); reflexivity.
Qed.

(** What a successful [updateJob] did. *)
Lemma updateJob_success (user : Req.user) (jobId : string)
    (b : JobSchema.input) (w w' : world) (res : response) :
  updateJob user jobId b w = (inr res, w') ->
  exists i j,
    castObjectId jobId = Some i
    /\ jobs w !! i = Some j
    /\ Job.invalidUpdatePaths b = []
    /\ res = mkResponse 200
               (JobBody (Job.applyUpdate b (JobSchema.in_createdBy b ≫= castObjectId)
                                         (now w) j))
    /\ jobs w' = <[i := Job.applyUpdate b (JobSchema.in_createdBy b ≫= castObjectId)
                                        (now w) j]> (jobs w)
    /\ users w' = users w /\ nextId w' = nextId w.
Proof.
  unfold updateJob.
  destruct (Js.isEmptyString _ || Js.isEmptyString _); [discriminate|].
  unfold Job.findByIdAndUpdate. run.
  destruct (castObjectId jobId) as [i|]; simpl; [|discriminate].
  destruct (JobSchema.in_createdBy b) as [s|]; simpl;
    [destruct (castObjectId s); simpl; [|discriminate]|];
    (destruct (Job.invalidUpdatePaths b); simpl; [|discriminate]);
    (destruct (jobs w !! i) as [j|] eqn:Hj; simpl; [|discriminate]);
    intros [= <- <-]; exists i, j; repeat split; assumption.
Qed.

(** What a failed [updateJob] did: nothing. *)
Lemma updateJob_failure (user : Req.user) (jobId : string)
    (b : JobSchema.input) (w : world) (e : error) :
  fst (updateJob user jobId b w) = inl e ->
  jobs (snd (updateJob user jobId b w)) = jobs w
  /\ users (snd (updateJob user jobId b w)) = users w
  /\ nextId (snd (updateJob user jobId b w)) = nextId w.
Proof.
  unfold updateJob.
  destruct (Js.isEmptyString _ || Js.isEmptyString _); [repeat split|].
  unfold Job.findByIdAndUpdate. run.
  destruct (castObjectId jobId) as [i|]; simpl; [|repeat split].
  destruct (JobSchema.in_createdBy b) as [s|]; simpl;
    [destruct (castObjectId s); simpl; [|repeat split]|];
    (destruct (Job.invalidUpdatePaths b); simpl; [|repeat split]);
    (destruct (jobs w !! i) as [j|] eqn:Hj; simpl; [discriminate|]);
    repeat split.
Qed.

End JobMore.

(** X8.  For a body that carries no [_id], [createdAt] or
    [updatedAt]: [createJob] succeeds when company (at most 50
    characters) and position (at most 100) are there and not empty, the
    status is absent or one of interview, declined and pending, and the
    caller's id casts to an ObjectId.  It answers 201 with the new job
    and stores it under the ObjectId the generator yields: the status
    defaults to "pending", the owner is the caller, both timestamps are
    the instant of the request. *)
Theorem createJob_files
    (L : Libs) (user : Req.user) (b : JobSchema.input) (w : world)
    (c p : string) (o : N) :
  JobSchema.in_company b = Some c -> c <> EmptyString ->
  (String.length c <= 50)%nat ->
  JobSchema.in_position b = Some p -> p <> EmptyString ->
  (String.length p <= 100)%nat ->
  (forall s, JobSchema.in_status b = Some s -> JobSchema.inEnum s = true) ->
  castObjectId (Req.userId user) = Some o ->
  let j := JobSchema.mk (nextId w) c p
             (default "pending" (JobSchema.in_status b)) o (now w) (now w) in
  fst (createJob user b w) = inr (mkResponse 201 (JobBody j))
  /\ jobs (snd (createJob user b w)) = <[nextId w := j]> (jobs w)
  /\ users (snd (createJob user b w)) = users w.
Proof.
  intros Hc Hcne Hc50 Hp Hpne Hp100 Hs Ho j. subst j.
  rewrite createJob_run. simpl.
  assert (Hvalid : Job.invalidPaths
            (JobSchema.mkInput (JobSchema.in_company b) (JobSchema.in_position b)
               (JobSchema.in_status b) (Some (Req.userId user))) = []).
  { apply job_valid. simpl. split; [exists c; auto|]. split; [exists p; auto|].
    split; [exact Hs|]. exists (Req.userId user), o. auto. }
  rewrite Hvalid, Ho, Hc, Hp. repeat split.
Qed.

(** X9.  For a body that carries no [_id], [createdAt] or
    [updatedAt]: when [createJob] throws, it throws a [ValidationError]
    whose paths are exactly those whose validators failed (as a set, in
    no particular order), at least one, and nothing was stored. *)
Theorem createJob_rejects_invalid
    (L : Libs) (user : Req.user) (b : JobSchema.input) (w : world) (e : error) :
  fst (createJob user b w) = inl e ->
  exists ps,
    e = ValidationError ps
    /\ (forall p, p ∈ ps <->
          p ∈ Job.invalidPaths
                (JobSchema.mkInput (JobSchema.in_company b)
                   (JobSchema.in_position b) (JobSchema.in_status b)
                   (Some (Req.userId user))))
    /\ (exists p, p ∈ ps)
    /\ jobs (snd (createJob user b w)) = jobs w
    /\ users (snd (createJob user b w)) = users w.
Proof.
  rewrite createJob_run. simpl.
  destruct (Job.invalidPaths _) as [|q qs] eqn:Hpaths.
  - destruct (proj1 (job_valid _) Hpaths) as (_ & _ & _ & (u & o & Hu & Ho)).
    simpl in Hu. injection Hu as <-. rewrite Ho. discriminate.
  - destruct (castObjectId (Req.userId user)); simpl; intros [= <-];
      (eexists; split; [reflexivity|]; split; [intros p; set_solver|];
        split; [exists q; set_solver|split; reflexivity]).
Qed.

(** X10.  A job that [createJob] has filed is what [getJob] returns to
    its creator under the job's id in hexadecimal, in every world that
    still holds it; a caller with another identifier gets 404.  (bson is
    asked only to read back the hexadecimal form of this one id.) *)
Theorem createJob_then_getJob
    (L : Libs) (user : Req.user) (b : JobSchema.input) (w w' : world)
    (j : JobSchema.t) :
  createJob user b w = (inr (mkResponse 201 (JobBody j)), w') ->
  castObjectId (toHexString (JobSchema._id j)) = Some (JobSchema._id j) ->
  jobs w' !! JobSchema._id j = Some j
  /\ (forall w2, jobs w2 !! JobSchema._id j = Some j ->
        fst (getJob user (toHexString (JobSchema._id j)) w2)
        = inr (mkResponse 200 (JobBody j)))
  /\ (forall w2 other o2,
        jobs w2 !! JobSchema._id j = Some j ->
        castObjectId (Req.userId other) = Some o2 ->
        castObjectId (Req.userId user) <> Some o2 ->
        fst (getJob other (toHexString (JobSchema._id j)) w2)
        = inl (noJob (toHexString (JobSchema._id j)))).
Proof.
  intros Hcreate Hhex.
  destruct (createJob_owner user b w w' _ Hcreate)
    as (j0 & o & [= <-] & Ho & Hown & Hid & _ & Hjobs).
  assert (Hstored : jobs w' !! JobSchema._id j = Some j).
  { rewrite Hjobs, Hid. apply lookup_insert_eq. }
  split; [exact Hstored|]. split.
  - intros w2 Hj.
    destruct (getJob_result user _ _ o w2 Hhex Ho) as [Hr _].
    rewrite Hr, (proj2 (lookupOwned_Some _ o (jobs w2) j) (conj Hj Hown)).
    reflexivity.
  - intros w2 other o2 Hj Ho2 Hne.
    apply (getJob_foreign other _ _ o2 j w2 Hhex Ho2 Hj).
    rewrite Hown. intros ->. now apply Hne.
Qed.

(** X11.  A successful [updateJob] answers 200 with the record as it is
    stored after the update.  The update keeps [_id] and [createdAt],
    sets [updatedAt] to the instant of the request, sets company,
    position and status to the body's values where the body has them and
    keeps them otherwise, keeps [createdBy] when the body has none, and
    touches no other job. *)
Theorem updateJob_patches
    (L : Libs) (user : Req.user) (jobId : string) (b : JobSchema.input)
    (w w' : world) (res : response) :
  updateJob user jobId b w = (inr res, w') ->
  exists i j j',
    castObjectId jobId = Some i
    /\ jobs w !! i = Some j
    /\ res = mkResponse 200 (JobBody j')
    /\ jobs w' !! i = Some j'
    /\ (forall k, k <> i -> jobs w' !! k = jobs w !! k)
    /\ JobSchema._id j' = JobSchema._id j
    /\ JobSchema.createdAt j' = JobSchema.createdAt j
    /\ JobSchema.updatedAt j' = now w
    /\ JobSchema.company j'
       = default (JobSchema.company j) (JobSchema.in_company b)
    /\ JobSchema.position j'
       = default (JobSchema.position j) (JobSchema.in_position b)
    /\ JobSchema.status j'
       = default (JobSchema.status j) (JobSchema.in_status b)
    /\ (JobSchema.in_createdBy b = None ->
        JobSchema.createdBy j' = JobSchema.createdBy j).
Proof.
  intros Hup.
  destruct (updateJob_success user jobId b w w' res Hup)
    as (i & j & Hi & Hj & _ & -> & Hjobs & _).
  exists i, j. eexists. split; [exact Hi|]. split; [exact Hj|].
  split; [reflexivity|]. rewrite Hjobs.
  split; [apply lookup_insert_eq|].
  split; [intros k Hk; now apply lookup_insert_ne|].
  repeat split. intros Hnone. rewrite Hnone. reflexivity.
Qed.

(** X12.  [updateJob] never creates: when the id casts, the body is
    acceptable and no job is stored under the id, it throws
    [NotFoundError] (404) and the collection stays as it was. *)
Theorem updateJob_never_creates
    (L : Libs) (user : Req.user) (jobId : string) (b : JobSchema.input)
    (i : N) (w : world) :
  castObjectId jobId = Some i ->
  jobs w !! i = None ->
  Js.isEmptyString (JobSchema.in_company b) = false ->
  Js.isEmptyString (JobSchema.in_position b) = false ->
  Job.invalidUpdatePaths b = [] ->
  (forall s, JobSchema.in_createdBy b = Some s -> is_Some (castObjectId s)) ->
  respond (fst (updateJob user jobId b w))
    = Failed 404 (Some ("No job with id " +:+ jobId))
  /\ jobs (snd (updateJob user jobId b w)) = jobs w.
Proof.
  intros Hi Hnone Hc Hp Hvalid Hcast. unfold updateJob. rewrite Hc, Hp. simpl.
  unfold Job.findByIdAndUpdate. run. rewrite Hi. simpl.
  destruct (JobSchema.in_createdBy b) as [s|]; simpl.
  - destruct (Hcast s eq_refl) as [o Ho]. rewrite Ho. simpl.
    rewrite Hvalid. simpl. rewrite Hnone. simpl. split; reflexivity.
  - rewrite Hvalid. simpl. rewrite Hnone. simpl. split; reflexivity.
Qed.

(** X13.  For a body that carries no [_id], [createdAt] or
    [updatedAt]: with [runValidators], an update whose id casts, whose
    [createdBy], if the body has one, casts, and which passes the
    empty-string guard, but whose company is longer than 50 characters,
    whose position is longer than 100, or whose status is not one of the
    three allowed, is refused with a [ValidationError]: its paths are
    exactly the failing ones (as a set, in no particular order), among
    them the path of each such member, whether or not the job exists,
    and nothing is written. *)
Theorem updateJob_runs_validators
    (L : Libs) (user : Req.user) (jobId : string) (b : JobSchema.input)
    (i : N) (w : world) :
  castObjectId jobId = Some i ->
  (forall s, JobSchema.in_createdBy b = Some s -> is_Some (castObjectId s)) ->
  Js.isEmptyString (JobSchema.in_company b) = false ->
  Js.isEmptyString (JobSchema.in_position b) = false ->
  ((exists c, JobSchema.in_company b = Some c /\ (50 < String.length c)%nat)
   \/ (exists p, JobSchema.in_position b = Some p /\ (100 < String.length p)%nat)
   \/ (exists s, JobSchema.in_status b = Some s /\ JobSchema.inEnum s = false)) ->
  exists ps,
    fst (updateJob user jobId b w) = inl (ValidationError ps)
    /\ (forall p, p ∈ ps <-> p ∈ Job.invalidUpdatePaths b)
    /\ (forall c, JobSchema.in_company b = Some c ->
           (50 < String.length c)%nat -> "company" ∈ ps)
    /\ (forall p, JobSchema.in_position b = Some p ->
           (100 < String.length p)%nat -> "position" ∈ ps)
    /\ (forall s, JobSchema.in_status b = Some s ->
           JobSchema.inEnum s = false -> "status" ∈ ps)
    /\ jobs (snd (updateJob user jobId b w)) = jobs w.
Proof.
  intros Hi Hcast Hgc Hgp Hbad.
  assert (Hlong : forall n s, (n < String.length s)%nat ->
            negb (String.eqb s EmptyString) && (String.length s <=? n)%nat = false).
  { intros n s Hlen. apply andb_false_iff. right. apply Nat.leb_gt. exact Hlen. }
  assert (Hmc : forall c, JobSchema.in_company b = Some c ->
            (50 < String.length c)%nat -> "company" ∈ Job.invalidUpdatePaths b).
  { intros c Hc Hlen. unfold Job.invalidUpdatePaths.
    rewrite Hc, (Hlong 50%nat c Hlen).
    apply elem_of_app. left. apply list_elem_of_singleton. reflexivity. }
  assert (Hmp : forall p, JobSchema.in_position b = Some p ->
            (100 < String.length p)%nat -> "position" ∈ Job.invalidUpdatePaths b).
  { intros p Hp Hlen. unfold Job.invalidUpdatePaths.
    rewrite Hp, (Hlong 100%nat p Hlen).
    apply elem_of_app. right. apply elem_of_app. left.
    apply list_elem_of_singleton. reflexivity. }
  assert (Hms : forall s, JobSchema.in_status b = Some s ->
            JobSchema.inEnum s = false -> "status" ∈ Job.invalidUpdatePaths b).
  { intros s Hs Hen. unfold Job.invalidUpdatePaths. rewrite Hs, Hen.
    apply elem_of_app. right. apply elem_of_app. right.
    apply list_elem_of_singleton. reflexivity. }
  assert (Hne : exists q qs, Job.invalidUpdatePaths b = q :: qs).
  { destruct (Job.invalidUpdatePaths b) as [|q qs] eqn:Hpaths; [|eauto].
    exfalso.
    destruct Hbad as [(c & Hc & Hlen)|[(p & Hp & Hlen)|(s & Hs & Hen)]];
      [pose proof (Hmc c Hc Hlen) as Hin
      |pose proof (Hmp p Hp Hlen) as Hin
      |pose proof (Hms s Hs Hen) as Hin];
      inversion Hin. }
  destruct Hne as (q & qs & Hpaths).
  assert (Hrun : updateJob user jobId b w
                 = (inl (ValidationError (list_to_set (q :: qs))),
                    mkWorld (users w) (jobs w) (nextId w) (now w) (entropy w)
                            (trace w ++ [CallJobFindByIdAndUpdate jobId
                                           (Req.userId user)]))).
  { unfold updateJob. rewrite Hgc, Hgp. simpl.
    unfold Job.findByIdAndUpdate. run. rewrite Hi. simpl.
    destruct (JobSchema.in_createdBy b) as [s|] eqn:Hcb; simpl.
    - destruct (Hcast s eq_refl) as [o Ho]. rewrite Ho. simpl.
      rewrite Hpaths. reflexivity.
    - rewrite Hpaths. reflexivity. }
  rewrite Hrun. simpl. eexists. split; [reflexivity|].
  assert (Hmem : forall p, p ∈ (list_to_set (q :: qs) : gset string)
                           <-> p ∈ Job.invalidUpdatePaths b).
  { intros p. rewrite Hpaths. apply elem_of_list_to_set. }
  split; [exact Hmem|].
  split; [intros c Hc Hlen; apply Hmem; now apply (Hmc c)|].
  split; [intros p Hp Hlen; apply Hmem; now apply (Hmp p)|].
  split; [intros s Hs Hen; apply Hmem; now apply (Hms s)|reflexivity].
Qed.

(** ** What a request can do to the world *)

Section Effects.
Context {L : Libs} (env : Env).

Lemma register_world (b : UserSchema.input) (w : world) :
  jobs (snd (register env b w)) = jobs w
  /\ nextId (snd (register env b w)) = N.succ (nextId w)
  /\ now (snd (register env b w)) = now w
  /\ (users (snd (register env b w)) = users w
      \/ exists u, users (snd (register env b w)) = users w ++ [u]
                   /\ UserSchema._id u = nextId w
                   /\ forall v, v ∈ users w ->
                        UserSchema.email v <> UserSchema.email u).
Proof.
  destruct (UserSchema.invalidPaths b) as [|p ps] eqn:Hvalid.
  - rewrite (register_run env b w Hvalid). simpl.
    destruct (existsb _ (users w)) eqn:Hex; simpl; [auto|].
    assert (Hfresh : forall v, v ∈ users w ->
              UserSchema.email v <> default EmptyString (UserSchema.in_email b)).
    { intros v Hin Heq.
      assert (Ht : existsb (fun u => String.eqb (UserSchema.email u)
                       (default EmptyString (UserSchema.in_email b)))
                     (users w) = true)
        by (apply email_taken; eauto).
      congruence. }
    destruct (Token.sign _ _ _ _ _); simpl;
      (repeat split; right; eexists; repeat split; exact Hfresh).
  - unfold register, User.create. run. rewrite Hvalid. simpl. auto.
Qed.

Lemma getAllJobs_world (user : Req.user) (w : world) :
  users (snd (getAllJobs user w)) = users w
  /\ jobs (snd (getAllJobs user w)) = jobs w
  /\ nextId (snd (getAllJobs user w)) = nextId w
  /\ now (snd (getAllJobs user w)) = now w.
Proof.
  rewrite getAllJobs_run.
  destruct (castObjectId (Req.userId user)); repeat split.
Qed.

Lemma getJob_world (user : Req.user) (jobId : string) (w : world) :
  users (snd (getJob user jobId w)) = users w
  /\ jobs (snd (getJob user jobId w)) = jobs w
  /\ nextId (snd (getJob user jobId w)) = nextId w
  /\ now (snd (getJob user jobId w)) = now w.
Proof.
  unfold getJob, Job.findOne. run.
  destruct (Job.castFilter _) as [e|[i o]]; simpl; [repeat split|].
  destruct (Job.lookupOwned i o (jobs w)); repeat split.
Qed.

Lemma createJob_world (user : Req.user) (b : JobSchema.input) (w : world) :
  users (snd (createJob user b w)) = users w
  /\ nextId (snd (createJob user b w)) = N.succ (nextId w)
  /\ now (snd (createJob user b w)) = now w
  /\ (jobs (snd (createJob user b w)) = jobs w
      \/ exists j, jobs (snd (createJob user b w)) = <[nextId w := j]> (jobs w)
                   /\ JobSchema._id j = nextId w).
Proof.
  rewrite createJob_run. simpl.
  destruct (Job.invalidPaths _) as [|p ps];
    destruct (castObjectId (Req.userId user)); simpl;
    repeat split; auto.
  right. eexists. split; reflexivity.
Qed.

Lemma updateJob_world (user : Req.user) (jobId : string)
    (b : JobSchema.input) (w : world) :
  users (snd (updateJob user jobId b w)) = users w
  /\ nextId (snd (updateJob user jobId b w)) = nextId w
  /\ now (snd (updateJob user jobId b w)) = now w
  /\ (jobs (snd (updateJob user jobId b w)) = jobs w
      \/ exists i j j',
           castObjectId jobId = Some i
           /\ jobs w !! i = Some j
           /\ jobs (snd (updateJob user jobId b w)) = <[i := j']> (jobs w)
           /\ JobSchema._id j' = JobSchema._id j).
Proof.
  unfold updateJob.
  destruct (Js.isEmptyString _ || Js.isEmptyString _); [repeat split; auto|].
  unfold Job.findByIdAndUpdate. run.
  destruct (castObjectId jobId) as [i|]; simpl; [|repeat split; auto].
  destruct (JobSchema.in_createdBy b) as [s|]; simpl;
    [destruct (castObjectId s); simpl; [|repeat split; auto]|];
    (destruct (Job.invalidUpdatePaths b); simpl; [|repeat split; auto]);
    (destruct (jobs w !! i) as [j|] eqn:Hj; simpl; [|repeat split; auto]);
    (split; [reflexivity|]); (split; [reflexivity|]); (split; [reflexivity|]);
    right; exists i, j; eexists;
    (split; [reflexivity|]); (split; [exact Hj|]); split; reflexivity.
Qed.

Lemma deleteJob_world (user : Req.user) (jobId : string) (w : world) :
  users (snd (deleteJob user jobId w)) = users w
  /\ nextId (snd (deleteJob user jobId w)) = nextId w
  /\ now (snd (deleteJob user jobId w)) = now w
  /\ (jobs (snd (deleteJob user jobId w)) = jobs w
      \/ exists i, castObjectId jobId = Some i
                   /\ jobs (snd (deleteJob user jobId w)) = delete i (jobs w)).
Proof.
  unfold deleteJob, Job.findOneAndDelete, Job.castFilter. run.
  destruct (castObjectId (Req.userId user)) as [o|]; simpl;
    [|repeat split; auto].
  destruct (castObjectId jobId) as [i|]; simpl; [|repeat split; auto].
  destruct (Job.lookupOwned i o (jobs w)); simpl; repeat split; auto.
  right. exists i. split; reflexivity.
Qed.

(** Every request moves the world in one of a few ways. *)
Lemma handle_world (r : request) (w : world) :
  (nextId w <= nextId (snd (handle env r w)))%N
  /\ now (snd (handle env r w)) = now w
  /\ (users (snd (handle env r w)) = users w
      \/ exists u, users (snd (handle env r w)) = users w ++ [u]
                   /\ UserSchema._id u = nextId w
                   /\ (nextId w < nextId (snd (handle env r w)))%N
                   /\ forall v, v ∈ users w ->
                        UserSchema.email v <> UserSchema.email u)
  /\ (jobs (snd (handle env r w)) = jobs w
      \/ (exists j, jobs (snd (handle env r w)) = <[nextId w := j]> (jobs w)
                    /\ JobSchema._id j = nextId w
                    /\ (nextId w < nextId (snd (handle env r w)))%N)
      \/ (exists i j j', jobs w !! i = Some j
                         /\ jobs (snd (handle env r w)) = <[i := j']> (jobs w)
                         /\ JobSchema._id j' = JobSchema._id j)
      \/ (exists i, jobs (snd (handle env r w)) = delete i (jobs w))).
Proof.
  destruct r as [b|b|u|u id|u b|u id b|u id]; simpl.
  - destruct (register_world b w) as (Hj & Hn & Ht & Hu).
    rewrite Hn, Hj. split; [lia|]. split; [exact Ht|]. split; [|auto].
    destruct Hu as [Hu|(v & Hv & Hid & Hfresh)]; [auto|].
    right. exists v. repeat split; try assumption. lia.
  - destruct (login_reads_only env b w) as (Hu & Hj & Hn & _ & Ht).
    rewrite Hn, Hj, Hu. split; [lia|]. auto.
  - destruct (getAllJobs_world u w) as (Hu & Hj & Hn & Ht).
    rewrite Hn, Hj, Hu. split; [lia|]. auto.
  - destruct (getJob_world u id w) as (Hu & Hj & Hn & Ht).
    rewrite Hn, Hj, Hu. split; [lia|]. auto.
  - destruct (createJob_world u b w) as (Hu & Hn & Ht & Hj).
    rewrite Hn, Hu. split; [lia|]. split; [exact Ht|]. split; [auto|].
    destruct Hj as [Hj|(j & Hj & Hid)]; [auto|].
    right. left. exists j. repeat split; try assumption. lia.
  - destruct (updateJob_world u id b w) as (Hu & Hn & Ht & Hj).
    rewrite Hn, Hu. split; [lia|]. split; [exact Ht|]. split; [auto|].
    destruct Hj as [Hj|(i & j & j' & _ & Hold & Hj & Hid)]; [auto|].
    right. right. left. exists i, j, j'. auto.
  - destruct (deleteJob_world u id w) as (Hu & Hn & Ht & Hj).
    rewrite Hn, Hu. split; [lia|]. split; [exact Ht|]. split; [auto|].
    destruct Hj as [Hj|(i & _ & Hj)]; [auto|].
    right. right. right. exists i. exact Hj.
Qed.

Lemma handle_keeps_jobsKeyed (r : request) (w : world) :
  jobsKeyed w -> jobsKeyed (snd (handle env r w)).
Proof.
  intros Hkeyed.
  destruct (handle_world r w) as (Hn & _ & _ & Hj).
  intros k j Hk.
  destruct Hj as [Hj|[(j0 & Hj & Hid & Hlt)|[(i & j0 & j' & Hold & Hj & Hid)|(i & Hj)]]];
    rewrite Hj in Hk.
  - destruct (Hkeyed k j Hk). split; [assumption|lia].
  - destruct (decide (nextId w = k)) as [<-|Hne].
    + rewrite lookup_insert_eq in Hk. injection Hk as <-. auto.
    + rewrite lookup_insert_ne in Hk by exact Hne.
      destruct (Hkeyed k j Hk). split; [assumption|lia].
  - destruct (decide (i = k)) as [<-|Hne].
    + rewrite lookup_insert_eq in Hk. injection Hk as <-.
      destruct (Hkeyed i j0 Hold). split; [congruence|lia].
    + rewrite lookup_insert_ne in Hk by exact Hne.
      destruct (Hkeyed k j Hk). split; [assumption|lia].
  - destruct (decide (i = k)) as [<-|Hne].
    + rewrite lookup_delete_eq in Hk. discriminate.
    + rewrite lookup_delete_ne in Hk by exact Hne.
      destruct (Hkeyed k j Hk). split; [assumption|lia].
Qed.

Lemma handle_keeps_emailsUnique (r : request) (w : world) :
  emailsUnique w -> emailsUnique (snd (handle env r w)).
Proof.
  unfold emailsUnique. intros Huniq.
  destruct (handle_world r w) as (_ & _ & Hu & _).
  destruct Hu as [Hu|(u & Hu & _ & _ & Hnew)]; rewrite Hu; [exact Huniq|].
  rewrite fmap_app. simpl. apply NoDup_app. split; [exact Huniq|].
  split; [|apply NoDup_singleton].
  intros em Hin Hin2. apply list_elem_of_singleton in Hin2. subst em.
  apply list_elem_of_fmap in Hin as (v & Heq & Hv).
  apply (Hnew v Hv). congruence.
Qed.

Lemma reachable_jobsKeyed (w : world) : reachable env w -> jobsKeyed w.
Proof.
  induction 1 as [n t e|r w _ IH|ms w _ _ IH].
  - intros k j Hk. simpl in Hk. rewrite lookup_empty in Hk. discriminate.
  - now apply handle_keeps_jobsKeyed.
  - exact IH.
Qed.

End Effects.

(** X14.  In every world the service can reach from empty collections,
    by any sequence of requests to the seven handlers (with bodies that
    carry no [_id], [createdAt] or [updatedAt]) with time passing in
    between: each job is stored under its own [_id], and no two
    credential records have the same e-mail. *)
Theorem reachable_invariants (L : Libs) (env : Env) (w : world) :
  reachable env w ->
  (forall i j, jobs w !! i = Some j -> JobSchema._id j = i)
  /\ emailsUnique w.
Proof.
  intros Hreach. split.
  - intros i j Hj.
    exact (proj1 (reachable_jobsKeyed env w Hreach i j Hj)).
  - induction Hreach as [n t e|r w _ IH|ms w _ _ IH].
    + unfold emailsUnique. simpl. apply NoDup_nil_2.
    + now apply handle_keeps_emailsUnique.
    + exact IH.
Qed.

(** X16.  [updateJob] and [deleteJob] write only under the id their
    request names: every other job is stored afterwards exactly as
    before, whatever the outcome. *)
Theorem job_writes_are_local
    (L : Libs) (user : Req.user) (jobId : string) (b : JobSchema.input)
    (w : world) (k : N) :
  castObjectId jobId <> Some k ->
  jobs (snd (updateJob user jobId b w)) !! k = jobs w !! k
  /\ jobs (snd (deleteJob user jobId w)) !! k = jobs w !! k.
Proof.
  intros Hother. split.
  - destruct (updateJob_world user jobId b w)
      as (_ & _ & _ & [Hj|(i & j & j' & Hi & _ & Hj & _)]); rewrite Hj;
      [reflexivity|].
    apply lookup_insert_ne. intros ->. now apply Hother.
  - destruct (deleteJob_world user jobId w)
      as (_ & _ & _ & [Hj|(i & Hi & Hj)]); rewrite Hj; [reflexivity|].
    apply lookup_delete_ne. intros ->. now apply Hother.
Qed.

Section FailureFacts.
Context {L : Libs} (env : Env).

Lemma createJob_failure (user : Req.user) (b : JobSchema.input) (w : world)
    (e : error) :
  fst (createJob user b w) = inl e ->
  jobs (snd (createJob user b w)) = jobs w.
Proof.
  rewrite createJob_run. simpl.
  destruct (Job.invalidPaths _);
    destruct (castObjectId (Req.userId user)); simpl;
    try discriminate; reflexivity.
Qed.

Lemma deleteJob_failure (user : Req.user) (jobId : string) (w : world)
    (e : error) :
  fst (deleteJob user jobId w) = inl e ->
  jobs (snd (deleteJob user jobId w)) = jobs w.
Proof.
  unfold deleteJob, Job.findOneAndDelete. run.
  destruct (Job.castFilter _) as [e'|[i o]]; simpl; [reflexivity|].
  destruct (Job.lookupOwned i o (jobs w)); simpl; [discriminate|reflexivity].
Qed.

End FailureFacts.

(** X17.  A request that ends in an error has written nothing to the
    job collection, and nothing to the credential records either, with
    one exception: a registration that fails when the token is signed. *)
Theorem failed_requests_write_nothing
    (L : Libs) (env : Env) (r : request) (w : world) (e : error) :
  fst (handle env r w) = inl e ->
  jobs (snd (handle env r w)) = jobs w
  /\ (users (snd (handle env r w)) = users w
      \/ (e = JwtSignError /\ exists b, r = Register b)).
Proof.
  destruct r as [b|b|u|u id|u b|u id b|u id]; simpl; intros Hfail.
  - destruct (register_world env b w) as (Hj & _). split; [exact Hj|].
    destruct (UserSchema.invalidPaths b) as [|p ps] eqn:Hvalid.
    + rewrite (register_run env b w Hvalid) in Hfail |- *. simpl in *.
      destruct (existsb _ (users w)); [left; reflexivity|].
      destruct (Token.sign _ _ _ _ _); [discriminate|].
      injection Hfail as <-. right. eauto.
    + left. apply register_rejects_aux. rewrite Hvalid. discriminate.
  - destruct (login_reads_only env b w) as (Hu & Hj & _). auto.
  - destruct (getAllJobs_world u w) as (Hu & Hj & _). auto.
  - destruct (getJob_world u id w) as (Hu & Hj & _). auto.
  - destruct (createJob_world u b w) as (Hu & _).
    split; [now apply (createJob_failure u b w e)|auto].
  - destruct (updateJob_failure u id b w e Hfail) as (Hj & Hu & _). auto.
  - destruct (deleteJob_world u id w) as (Hu & _).
    split; [now apply (deleteJob_failure u id w e)|auto].
Qed.

Section ListFacts.
Context {L : Libs}.

(** Who is on the list that [getAllJobs] returns. *)
Lemma getAllJobs_members (user : Req.user) (o : N) (w : world)
    (l : list JobSchema.t) (n : nat) :
  castObjectId (Req.userId user) = Some o ->
  fst (getAllJobs user w) = inr (mkResponse 200 (JobsBody l n)) ->
  forall j, j ∈ l <->
    (exists k, jobs w !! k = Some j) /\ JobSchema.createdBy j = o.
Proof.
  intros Ho Hlist j. rewrite getAllJobs_run, Ho in Hlist. simpl in Hlist.
  injection Hlist as <- _.
  unfold Job.sort. rewrite merge_sort_Permutation.
  unfold Job.ownedBy. rewrite list_elem_of_filter, list_elem_of_fmap.
  split.
  - intros [Hown [[k j'] [-> Hin]]]. apply elem_of_map_to_list in Hin.
    split; [exists k; exact Hin|exact Hown].
  - intros [[k Hin] Hown]. split; [exact Hown|].
    exists (k, j). split; [reflexivity|]. now apply elem_of_map_to_list.
Qed.

End ListFacts.

(** X18.  Where every job sits under its own [_id], a job that
    [deleteJob] has removed is gone from every list: for any caller, the
    jobs [getAllJobs] returns after the deletion are those it returned
    before, less the one with the deleted id. *)
Theorem deleteJob_then_list
    (L : Libs) (user reader : Req.user) (jobId : string) (i o : N)
    (w : world) (before after : list JobSchema.t) (n m : nat) :
  jobsKeyed w ->
  castObjectId jobId = Some i ->
  castObjectId (Req.userId reader) = Some o ->
  fst (deleteJob user jobId w) = inr (mkResponse 200 EmptyBody) ->
  fst (getAllJobs reader w) = inr (mkResponse 200 (JobsBody before n)) ->
  fst (getAllJobs reader (snd (deleteJob user jobId w)))
    = inr (mkResponse 200 (JobsBody after m)) ->
  forall j, j ∈ after <-> j ∈ before /\ JobSchema._id j <> i.
Proof.
  intros Hkeyed Hi Ho Hdel Hbefore Hafter j.
  rewrite (getAllJobs_members reader o _ after m Ho Hafter).
  rewrite (getAllJobs_members reader o _ before n Ho Hbefore).
  assert (Hjobs : jobs (snd (deleteJob user jobId w)) = delete i (jobs w)).
  { destruct (deleteJob_world user jobId w)
      as (_ & _ & _ & [Hsame|(i' & Hi' & Hj)]).
    - unfold deleteJob, Job.findOneAndDelete, Job.castFilter in Hdel, Hsame.
      revert Hdel Hsame. run. rewrite Hi.
      destruct (castObjectId (Req.userId user)) as [o'|]; simpl;
        [|discriminate].
      destruct (Job.lookupOwned i o' (jobs w)) as [j0|] eqn:Hl; simpl;
        [|discriminate].
      intros _ Hsame. rewrite Hsame.
      apply lookupOwned_Some in Hl as [Hl _].
      apply (f_equal (fun m => m !! i)) in Hsame.
      rewrite lookup_delete_eq, Hl in Hsame. discriminate.
    - rewrite Hi in Hi'. injection Hi' as <-. exact Hj. }
  rewrite Hjobs. split.
  - intros [[k Hk] Hown].
    destruct (decide (k = i)) as [->|Hne];
      [rewrite lookup_delete_eq in Hk; discriminate|].
    rewrite lookup_delete_ne in Hk by congruence.
    destruct (Hkeyed k j Hk) as [Hid _].
    split; [split; [eauto|exact Hown]|congruence].
  - intros [[[k Hk] Hown] Hne].
    destruct (Hkeyed k j Hk) as [Hid _].
    split; [|exact Hown]. exists k.
    rewrite lookup_delete_ne; [exact Hk|congruence].
Qed.

(** X19.  On the job routes the gate runs first: when it refuses the
    request, the controller is not entered, so the answer is the gate's
    one error and the world, trace included, is as before; when it lets
    the request through, the controller runs on the very world the
    request found, with the identity read from the token. *)
Theorem protected_runs_gate_first
    (L : Libs) (env : Env) (A : Type) (a : option string)
    (handler : Req.user -> M A) (w : world) :
  (forall e w', auth env a w = (inl e, w') ->
     protected env a handler w = (inl authInvalid, w))
  /\ (forall u w', auth env a w = (inr u, w') ->
        protected env a handler w = handler u w
        /\ exists h p, a = Some h
             /\ Token.verify (Js.split " " h !! 1%nat) (JWT_SECRET env)
                             (Token.seconds (now w)) = inr p
             /\ u = Req.mkUser (jwt.userId p) (jwt.name p)).
Proof.
  assert (Hcases : auth env a w = (inl authInvalid, w)
                   \/ exists h p, a = Some h
                        /\ Token.verify (Js.split " " h !! 1%nat) (JWT_SECRET env)
                                        (Token.seconds (now w)) = inr p
                        /\ auth env a w
                           = (inr (Req.mkUser (jwt.userId p) (jwt.name p)), w)).
  { destruct (headerRefused a) eqn:Hshape.
    - left. now apply auth_refused_header.
    - destruct a as [h|]; [|discriminate].
      rewrite (auth_accepted_header env h w Hshape).
      destruct (Token.verify _ _ _) as [e|p] eqn:Hver; [left; reflexivity|].
      right. exists h, p. auto. }
  split.
  - intros e w' Hauth. unfold protected, bind. rewrite Hauth.
    destruct Hcases as [Hc|(h & p & _ & _ & Hc)]; rewrite Hc in Hauth;
      [|discriminate].
    injection Hauth as <- <-. reflexivity.
  - intros u w' Hauth. unfold protected, bind. rewrite Hauth.
    destruct Hcases as [Hc|(h & p & Ha & Hver & Hc)]; rewrite Hc in Hauth;
      [discriminate|].
    injection Hauth as <- <-. split; [reflexivity|]. exists h, p. auto.
Qed.

(** X20.  The token of a registration stops working when it expires:
    from the instant that lies the configured lifetime after the
    registration, verifying it fails with [TokenExpiredError] and the
    gate refuses "Bearer <token>" like any other bad token. *)
Theorem register_token_expires
    (L : Libs) (env : Env) (b : UserSchema.input) (w w' : world)
    (res : response) :
  jwtFaithful L ->
  register env b w = (inr res, w') ->
  exists (nm : string) (em : option string) (token : string) (d : Z),
    json res = UserBody nm em token
    /\ (JWT_LIFETIME env ≫= timespan) = Some d
    /\ (forall c, Token.seconds (now w) + d <= c ->
          Token.verify (Some token) (JWT_SECRET env) c
          = inl jwt.TokenExpiredError)
    /\ (forall w2, Token.seconds (now w) + d <= Token.seconds (now w2) ->
          auth env (Some ("Bearer " +:+ token)) w2 = (inl authInvalid, w2)).
Proof.
  intros Hf Hreg.
  destruct (register_success env b w w' res Hreg)
    as (u & token & _ & _ & _ & _ & _ & -> & Hsign).
  destruct (verify_sign Hf _ _ _ _ _ _ Hsign) as (d & Hd & Hver).
  exists (UserSchema.name u), (Some (UserSchema.email u)), token, d.
  split; [reflexivity|]. split; [exact Hd|]. split.
  - intros c Hc. rewrite Hver.
    destruct (Z.leb_spec (Token.seconds (now w) + d) c); [reflexivity|lia].
  - intros w2 Hc.
    rewrite auth_accepted_header
      by (apply (headerRefused_bearer (String " " token))).
    pose proof (bearerToken_of_token token (sign_no_space Hf _ _ _ _ _ _ Hsign))
      as Htok.
    unfold bearerToken in Htok. rewrite Htok, Hver.
    destruct (Z.leb_spec (Token.seconds (now w) + d) (Token.seconds (now w2)));
      [reflexivity|lia].
Qed.

(** ** The e-mail pattern *)

Section RegexFacts.
Import Regex.

Lemma nullable_matches (r : re) : nullable r = true -> matches r EmptyString.
Proof.
  induction r as [| |p|r1 IH1 r2 IH2|r1 IH1 r2 IH2|r IH]; simpl; intros Hn;
    try discriminate.
  - constructor.
  - apply andb_true_iff in Hn as [H1 H2].
    change EmptyString with (EmptyString +:+ EmptyString). constructor; auto.
  - apply orb_true_iff in Hn as [H|H];
      [apply MatchAltL|apply MatchAltR]; auto.
  - constructor.
Qed.

Lemma append_nil (s1 s2 : string) :
  s1 +:+ s2 = EmptyString -> s1 = EmptyString /\ s2 = EmptyString.
Proof. destruct s1; simpl; [auto|discriminate]. Qed.

Lemma matches_nil (r : re) (s : string) :
  matches r s -> s = EmptyString -> nullable r = true.
Proof.
  induction 1 as [|p c Hp|r1 r2 s1 s2 _ IH1 _ IH2|r1 r2 s _ IH|r1 r2 s _ IH
                  |r|r s1 s2 _ _ _ _]; simpl; intros Hs;
    try reflexivity; try discriminate.
  - apply append_nil in Hs as [-> ->]. now rewrite IH1, IH2.
  - now rewrite IH.
  - rewrite IH by exact Hs. apply orb_true_r.
Qed.

Lemma matches_cat (r1 r2 : re) (s : string) :
  matches (cat r1 r2) s -> matches (Cat r1 r2) s.
Proof.
  assert (Heps : forall r, matches r s -> matches (Cat Eps r) s).
  { intros r H. change s with (EmptyString +:+ s). constructor;
      [constructor|exact H]. }
  destruct r1, r2; simpl; intros H; auto; inversion H.
Qed.

Lemma matches_alt (r1 r2 : re) (s : string) :
  matches (alt r1 r2) s -> matches (Alt r1 r2) s.
Proof.
  destruct r1, r2; simpl; intros H; auto;
    try (now apply MatchAltR); try (now apply MatchAltL).
Qed.

Lemma deriv_matches (c : ascii) (r : re) :
  forall s, matches (deriv c r) s -> matches r (String c s).
Proof.
  induction r as [| |p|r1 IH1 r2 IH2|r1 IH1 r2 IH2|r IH]; simpl; intros s H.
  - inversion H.
  - inversion H.
  - destruct (p c) eqn:Hp; inversion H; subst. now constructor.
  - assert (Hleft : matches (cat (deriv c r1) r2) s ->
                    matches (Cat r1 r2) (String c s)).
    { intros Hc. apply matches_cat in Hc. inversion Hc; subst.
      change (String c (s1 +:+ s2)) with (String c s1 +:+ s2).
      constructor; auto. }
    destruct (nullable r1) eqn:Hn; [|auto].
    apply matches_alt in H. inversion H; subst; [auto|].
    change (String c s) with (EmptyString +:+ String c s).
    constructor; [now apply nullable_matches|auto].
  - apply matches_alt in H.
    inversion H; subst; [apply MatchAltL|apply MatchAltR]; auto.
  - apply matches_cat in H. inversion H; subst.
    change (String c (s1 +:+ s2)) with (String c s1 +:+ s2).
    constructor; auto.
Qed.

(** What the matcher accepts, the pattern denotes. *)
Lemma test_sound (s : string) :
  forall r, test r s = true -> matches r s.
Proof.
  induction s as [|c s IH]; simpl; intros r H.
  - now apply nullable_matches.
  - apply deriv_matches. now apply IH.
Qed.

End RegexFacts.

(** X21.  An e-mail that the [match] validator of the schema accepts has
    an "@" with something before it and something after it. *)
Theorem valid_email_shape (e : string) :
  Regex.test UserSchema.emailPattern e = true ->
  exists l d, e = l +:+ "@" +:+ d /\ l <> EmptyString /\ d <> EmptyString.
Proof.
  intros Htest. apply test_sound in Htest.
  unfold UserSchema.emailPattern in Htest.
  inversion Htest as [| |r1 r2 l rest Hl Hrest| | | |]; subst.
  inversion Hrest as [| |r1 r2 at_ d Hat Hd| | | |]; subst.
  inversion Hat as [|p c Hc| | | | |]; subst.
  apply Ascii.eqb_eq in Hc. subst c.
  exists l, d. split; [reflexivity|]. split.
  - intros ->. pose proof (matches_nil _ _ Hl eq_refl) as Hnull.
    discriminate Hnull.
  - intros ->. pose proof (matches_nil _ _ Hd eq_refl) as Hnull.
    discriminate Hnull.
Qed.

Section DomainFacts.
Import Regex.

Lemma append_assoc_s (a b c : string) : (a +:+ b) +:+ c = a +:+ b +:+ c.
Proof.
  induction a as [|x a IH]; [reflexivity|].
  change (String x ((a +:+ b) +:+ c) = String x (a +:+ b +:+ c)).
  now rewrite IH.
Qed.

Lemma append_empty_r (a : string) : a +:+ EmptyString = a.
Proof.
  induction a as [|x a IH]; [reflexivity|].
  change (String x (a +:+ EmptyString) = String x a). now rewrite IH.
Qed.

(** A repetition of pieces that each end in [c] is empty or ends in [c]. *)
Lemma star_ends (a : re) (c : ascii) (r : re) (s : string) :
  matches r s -> r = Star (Cat a (Lit c)) ->
  s = EmptyString \/ exists pre, s = pre +:+ String c EmptyString.
Proof.
  induction 1 as [| | | | |r0|r0 s1 s2 H1 _ _ IH2]; intros Hr;
    try discriminate; [left; reflexivity|].
  injection Hr as ->. right.
  inversion H1 as [| |r1 r2 u v Hu Hv| | | |]; subst.
  inversion Hv as [|p d Hd| | | | |]; subst.
  apply Ascii.eqb_eq in Hd. subst d.
  destruct (IH2 eq_refl) as [->|(pre & ->)].
  - exists u. now rewrite append_empty_r.
  - exists ((u +:+ String c EmptyString) +:+ pre).
    now rewrite !append_assoc_s.
Qed.

(** A repetition of characters of a class holds only such characters. *)
Lemma star_class (p : ascii -> bool) (r : re) (s : string) :
  matches r s -> r = Star (Class p) ->
  forall c, Js.occurs c s = true -> p c = true.
Proof.
  induction 1 as [| | | | |r0|r0 s1 s2 H1 _ _ IH2]; intros Hr x Hoc;
    try discriminate.
  injection Hr as ->.
  inversion H1 as [|q d Hd| | | | |]; subst. simpl in Hoc.
  apply orb_true_iff in Hoc as [Hc|Hc].
  - apply Ascii.eqb_eq in Hc. now subst d.
  - now apply (IH2 eq_refl).
Qed.

End DomainFacts.

(** X22.  The part after the "@" of an accepted e-mail either opens with
    a bracket (an address literal) or ends in a dot followed by at least
    two letters and nothing but letters. *)
Theorem valid_email_domain (e : string) :
  Regex.test UserSchema.emailPattern e = true ->
  exists l d,
    e = l +:+ "@" +:+ d
    /\ ((exists rest, d = String "[" rest)
        \/ (exists pre tld,
              d = pre +:+ "." +:+ tld
              /\ (2 <= String.length tld)%nat
              /\ forall c, Js.occurs c tld = true -> Regex.letter c = true)).
Proof.
  intros Htest. apply test_sound in Htest.
  unfold UserSchema.emailPattern in Htest.
  inversion Htest as [| |r1 r2 l rest Hl Hrest| | | |]; subst.
  inversion Hrest as [| |r1 r2 at_ d Hat Hd| | | |]; subst.
  inversion Hat as [|p c Hc| | | | |]; subst.
  apply Ascii.eqb_eq in Hc. subst c.
  exists l, d. split; [reflexivity|].
  inversion Hd as [| | |r1 r2 s Hip|r1 r2 s Hname| |]; subst.
  - left. inversion Hip as [| |r1 r2 open rest' Hopen _| | | |]; subst.
    inversion Hopen as [|p c Hc| | | | |]; subst.
    apply Ascii.eqb_eq in Hc. subst c. eexists. reflexivity.
  - right.
    inversion Hname as [| |r1 r2 labels tld Hlabels Htld| | | |]; subst.
    inversion Htld as [| |r1 r2 first more Hfirst Hmore| | | |]; subst.
    inversion Hfirst as [|p c1 Hc1| | | | |]; subst.
    inversion Hmore as [| |r1 r2 second others Hsecond Hothers| | | |]; subst.
    inversion Hsecond as [|p c2 Hc2| | | | |]; subst.
    (* the labels: one piece ending in a dot, then more of them *)
    unfold Regex.Plus in Hlabels.
    inversion Hlabels as [| |r1 r2 one others' Hone Hstar| | | |]; subst.
    assert (Hdot : exists pre, one +:+ others' = pre +:+ String "." EmptyString).
    { inversion Hone as [| |r1 r2 u v Hu Hv| | | |]; subst.
      inversion Hv as [|p d Hd'| | | | |]; subst.
      apply Ascii.eqb_eq in Hd'. subst d.
      destruct (star_ends _ _ _ _ Hstar eq_refl) as [->|(pre & ->)].
      - exists u. now rewrite append_empty_r.
      - exists ((u +:+ String "." EmptyString) +:+ pre).
        now rewrite !append_assoc_s. }
    destruct Hdot as (pre & Hpre). rewrite Hpre.
    exists pre. eexists. split; [now rewrite append_assoc_s|]. split.
    + simpl. lia.
    + intros c Hoc. simpl in Hoc.
      apply orb_true_iff in Hoc as [Hc|Hoc];
        [apply Ascii.eqb_eq in Hc; now subst c1|].
      apply orb_true_iff in Hoc as [Hc|Hoc];
        [apply Ascii.eqb_eq in Hc; now subst c2|].
      now apply (star_class _ _ _ Hothers eq_refl).
Qed.

(** ** The sample libraries honour the contract of bcryptjs *)

Section SampleBcrypt.

Lemma dollar_spell (s : string) : Js.occurs "$" (Sample.spell s) = false.
Proof.
  induction s as [|[b0 b1 b2 b3 b4 b5 b6 b7] s IH]; [reflexivity|].
  cbn [Sample.spell Sample.spellChar Js.occurs]. rewrite IH.
  destruct b0, b1, b2, b3, b4, b5, b6, b7; reflexivity.
Qed.

Lemma dollar_spellPos (p : positive) :
  Js.occurs "$" (Sample.spellPos p) = false.
Proof. induction p as [q IH|q IH|]; simpl; rewrite ?IH; reflexivity. Qed.

Lemma dollar_spellZ (z : Z) : Js.occurs "$" (Sample.spellZ z) = false.
Proof.
  destruct z as [|p|p]; simpl; rewrite ?dollar_spellPos; reflexivity.
Qed.

Lemma sample_bcrypt : bcryptFaithful Sample.libs.
Proof.
  intros plain rounds seed.
  change (Sample.bcryptCompare plain
            (Sample.bcryptHash plain (Sample.genSalt rounds seed)) = true).
  unfold Sample.bcryptCompare, Sample.bcryptHash, Sample.genSalt.
  rewrite !append_assoc_s.
  change ("$2a$" +:+ ?x) with (String "$" ("2a" +:+ String "$" x)).
  cbn [Js.split]. rewrite Ascii.eqb_refl.
  rewrite split_first by reflexivity.
  rewrite !split_first_lit by apply dollar_spellZ.
  rewrite split_whole by apply dollar_spell.
  apply String.eqb_refl.
Qed.

End SampleBcrypt.

(** ** The further properties at work on the sample run *)

Lemma sample_signer : signerReady Sample.env.
Proof. split; eexists; reflexivity. Qed.

Lemma run_reachable : reachable Sample.env Run.filed.
Proof. repeat apply reach_handle. apply reach_start. Qed.

Lemma register_stores_hashed_witness :
  exists token,
    fst (register Sample.env Run.carol Run.both)
    = inr (mkResponse 201 (UserBody "Carol" (Some "carol@z.net") token)).
Proof.
  destruct (register_stores_hashed Sample.libs Sample.env Run.carol Run.both)
    as (token & Hres & _).
  - vm_compute. reflexivity.
  - vm_compute. reflexivity.
  - exact sample_signer.
  - exists token. exact Hres.
Defined.

Lemma register_success_requires_witness :
  exists nm em pw,
    Scenario.ann = UserSchema.mkInput (Some nm) (Some em) (Some pw)
    /\ (3 <= String.length nm <= 50)%nat
    /\ (6 <= String.length pw)%nat.
Proof.
  destruct (register_success_requires Sample.libs Sample.env Scenario.ann
              Sample.start (snd Scenario.annRegistered)
              (match fst Scenario.annRegistered with
               | inr res => res
               | inl _ => mkResponse 0 EmptyBody
               end))
    as (nm & em & pw & Hb & Hn & _ & Hp & _).
  - vm_compute. reflexivity.
  - exists nm, em, pw. auto.
Defined.

Lemma register_rejects_invalid_witness :
  exists ps,
    fst (register Sample.env
           (UserSchema.mkInput (Some "Al") (Some "al@x") (Some "short"))
           Sample.start)
      = inl (ValidationError ps)
    /\ "password" ∈ ps
    /\ users (snd (register Sample.env
                     (UserSchema.mkInput (Some "Al") (Some "al@x") (Some "short"))
                     Sample.start)) = [].
Proof.
  destruct (register_rejects_invalid Sample.libs Sample.env
              (UserSchema.mkInput (Some "Al") (Some "al@x") (Some "short"))
              Sample.start) as (ps & Hres & Hmem & Hus & _).
  - vm_compute. discriminate.
  - exists ps. split; [exact Hres|]. split; [|exact Hus].
    apply Hmem. apply list_elem_of_In. vm_compute. auto.
Defined.

Lemma register_rejects_duplicate_witness :
  fst (register Sample.env Scenario.ann Run.registered)
    = inl (DuplicateKeyError "email")
  /\ users (snd (register Sample.env Scenario.ann Run.registered))
     = users Run.registered.
Proof.
  destruct (register_rejects_duplicate Sample.libs Sample.env Scenario.ann
              Run.registered
              (UserSchema.mk 1 "Ann" "ann@x.com"
                 (bcryptHash "secret1" (genSalt 10 0)) 1000000 1000000))
    as (Hres & Hus & _).
  - vm_compute. reflexivity.
  - apply list_elem_of_In. vm_compute. left. reflexivity.
  - reflexivity.
  - split; [exact Hres|exact Hus].
Defined.

Lemma register_unsigned_keeps_user_witness :
  fst (register Run.unsigned Run.carol Run.both) = inl JwtSignError
  /\ fst (register Run.unsigned Run.carol
            (snd (register Run.unsigned Run.carol Run.both)))
     = inl (DuplicateKeyError "email").
Proof.
  destruct (register_unsigned_keeps_user Sample.libs Run.unsigned Run.carol
              Run.both) as (Hres & _ & Hagain).
  - vm_compute. reflexivity.
  - vm_compute. reflexivity.
  - intros [[k Hk] _]. discriminate Hk.
  - split; [exact Hres|exact Hagain].
Defined.

Lemma login_after_register_witness :
  exists nm token,
    UserSchema.in_name Scenario.ann = Some nm
    /\ fst (login Sample.env
              (Req.mkLogin (UserSchema.in_email Scenario.ann)
                           (UserSchema.in_password Scenario.ann))
              (elapse 60000 Run.registered))
       = inr (mkResponse 200 (UserBody nm None token)).
Proof.
  apply (login_after_register Sample.libs Sample.env Scenario.ann
           Sample.start (snd Scenario.annRegistered)
           (elapse 60000 Run.registered)
           (match fst Scenario.annRegistered with
            | inr res => res
            | inl _ => mkResponse 0 EmptyBody
            end) sample_bcrypt).
  - vm_compute. reflexivity.
  - reflexivity.
Defined.

Lemma login_token_roundtrip_witness :
  exists (u : UserSchema.t) (token : string),
    u ∈ users Run.both
    /\ UserSchema.email u = "ann@x.com"
    /\ auth Sample.env (Some ("Bearer " +:+ token)) Run.filed
       = (inr (Req.mkUser (toHexString (UserSchema._id u)) (UserSchema.name u)),
          Run.filed).
Proof.
  destruct (login_token_roundtrip Sample.libs Sample.env Run.annLogin Run.both
              (snd (login Sample.env Run.annLogin Run.both))
              (match fst (login Sample.env Run.annLogin Run.both) with
               | inr res => res
               | inl _ => mkResponse 0 EmptyBody
               end) sample_faithful)
    as (u & token & d & Hin & Hem & _ & Hd & _ & Hgate).
  - vm_compute. reflexivity.
  - exists u, token. split; [exact Hin|]. split.
    + simpl in Hem. now injection Hem.
    + apply Hgate. injection Hd as <-. vm_compute. reflexivity.
Defined.

Lemma createJob_files_witness :
  fst (createJob Scenario.annUser Scenario.acme Run.both)
    = inr (mkResponse 201 (JobBody Scenario.annJob)).
Proof.
  apply (createJob_files Sample.libs Scenario.annUser Scenario.acme Run.both
           "Acme" "Engineer" 1%N);
    try reflexivity; try discriminate; try (simpl; lia).
Defined.

Lemma createJob_rejects_invalid_witness :
  exists ps : gset string,
    "company" ∈ ps /\ "status" ∈ ps
    /\ jobs (snd (createJob Scenario.annUser
                    (JobSchema.mkInput None (Some "Engineer") (Some "hired") None)
                    Run.both))
       = jobs Run.both.
Proof.
  destruct (createJob_rejects_invalid Sample.libs Scenario.annUser
              (JobSchema.mkInput None (Some "Engineer") (Some "hired") None)
              Run.both (ValidationError {["company"; "status"]}))
    as (ps & _ & Hmem & _ & Hjobs & _).
  - vm_compute. reflexivity.
  - exists ps. split; [|split; [|exact Hjobs]];
      apply Hmem; apply list_elem_of_In; vm_compute; auto.
Defined.

Lemma createJob_then_getJob_witness :
  fst (getJob Scenario.annUser (toHexString 3%N) (elapse 5000 Run.filed))
    = inr (mkResponse 200 (JobBody Scenario.annJob))
  /\ fst (getJob Scenario.bobUser (toHexString 3%N) Run.filed)
     = inl (noJob (toHexString 3%N)).
Proof.
  destruct (createJob_then_getJob Sample.libs Scenario.annUser Scenario.acme
              Run.both Run.filed Scenario.annJob)
    as (_ & Hown & Hother).
  - vm_compute. reflexivity.
  - vm_compute. reflexivity.
  - split.
    + apply Hown. vm_compute. reflexivity.
    + apply (Hother Run.filed Scenario.bobUser 2%N).
      * vm_compute. reflexivity.
      * vm_compute. reflexivity.
      * vm_compute. discriminate.
Defined.

Lemma updateJob_patches_witness :
  exists j',
    fst (updateJob Scenario.annUser Scenario.jobId
           (JobSchema.mkInput None None (Some "interview") None)
           (elapse 250 Run.filed))
    = inr (mkResponse 200 (JobBody j'))
    /\ JobSchema.company j' = "Acme"
    /\ JobSchema.status j' = "interview"
    /\ JobSchema.createdAt j' = 1000000
    /\ JobSchema.updatedAt j' = 1000250.
Proof.
  destruct (updateJob_patches Sample.libs Scenario.annUser Scenario.jobId
              (JobSchema.mkInput None None (Some "interview") None)
              (elapse 250 Run.filed)
              (snd (updateJob Scenario.annUser Scenario.jobId
                      (JobSchema.mkInput None None (Some "interview") None)
                      (elapse 250 Run.filed)))
              (mkResponse 200
                 (JobBody (JobSchema.mk 3 "Acme" "Engineer" "interview" 1
                                        1000000 1000250))))
    as (i & j & j' & Hi & Hj & Hres & _ & _ & _ & Hcreated & Hupdated
        & Hcompany & _ & Hstatus & _).
  - vm_compute. reflexivity.
  - injection Hres as <-. eexists. split; [vm_compute; reflexivity|].
    repeat split.
Defined.

Lemma updateJob_never_creates_witness :
  respond (fst (updateJob Scenario.annUser "00000000000000000000000f"
                  Scenario.rename Run.filed))
    = Failed 404 (Some "No job with id 00000000000000000000000f")
  /\ jobs (snd (updateJob Scenario.annUser "00000000000000000000000f"
                  Scenario.rename Run.filed))
     = jobs Run.filed.
Proof.
  apply (updateJob_never_creates Sample.libs Scenario.annUser
           "00000000000000000000000f" Scenario.rename 15%N Run.filed);
    try (vm_compute; reflexivity).
  intros s Hs. discriminate Hs.
Defined.

Lemma updateJob_runs_validators_witness :
  exists ps,
    fst (updateJob Scenario.annUser Scenario.jobId
           (JobSchema.mkInput (Some Run.longCompany) None None None) Run.filed)
      = inl (ValidationError ps)
    /\ "company" ∈ ps
    /\ jobs (snd (updateJob Scenario.annUser Scenario.jobId
                    (JobSchema.mkInput (Some Run.longCompany) None None None)
                    Run.filed))
       = jobs Run.filed.
Proof.
  destruct (updateJob_runs_validators Sample.libs Scenario.annUser
              Scenario.jobId
              (JobSchema.mkInput (Some Run.longCompany) None None None)
              3%N Run.filed) as (ps & Hres & _ & Hco & _ & _ & Hjobs);
    try reflexivity.
  - intros s Hs. discriminate Hs.
  - left. exists Run.longCompany. split; [reflexivity|]. vm_compute. lia.
  - exists ps. split; [exact Hres|]. split; [|exact Hjobs].
    apply (Hco Run.longCompany); [reflexivity|]. vm_compute. lia.
Defined.

Lemma reachable_invariants_witness :
  reachable Sample.env Run.filed
  /\ (forall i j, jobs Run.filed !! i = Some j -> JobSchema._id j = i)
  /\ emailsUnique Run.filed.
Proof.
  split; [exact run_reachable|].
  apply (reachable_invariants Sample.libs Sample.env Run.filed run_reachable).
Defined.

Lemma job_writes_are_local_witness :
  jobs (snd (deleteJob Scenario.annUser Scenario.jobId Scenario.busy)) !! 5%N
    = jobs Scenario.busy !! 5%N
  /\ jobs (snd (updateJob Scenario.bobUser Scenario.jobId Scenario.rename
                  Scenario.busy)) !! 4%N
     = jobs Scenario.busy !! 4%N.
Proof.
  split.
  - apply (job_writes_are_local Sample.libs Scenario.annUser Scenario.jobId
             Scenario.rename Scenario.busy 5%N).
    vm_compute. discriminate.
  - apply (job_writes_are_local Sample.libs Scenario.bobUser Scenario.jobId
             Scenario.rename Scenario.busy 4%N).
    vm_compute. discriminate.
Defined.

Lemma failed_requests_write_nothing_witness :
  fst (handle Sample.env (DeleteJob Scenario.bobUser Scenario.jobId) Run.filed)
    = inl (noJob Scenario.jobId)
  /\ jobs (snd (handle Sample.env (DeleteJob Scenario.bobUser Scenario.jobId)
                  Run.filed))
     = jobs Run.filed.
Proof.
  assert (Hfail : fst (handle Sample.env
                         (DeleteJob Scenario.bobUser Scenario.jobId) Run.filed)
                  = inl (noJob Scenario.jobId))
    by (vm_compute; reflexivity).
  split; [exact Hfail|].
  apply (failed_requests_write_nothing Sample.libs Sample.env
           (DeleteJob Scenario.bobUser Scenario.jobId) Run.filed
           (noJob Scenario.jobId) Hfail).
Defined.

Lemma busy_reachable : reachable Sample.env Run.busy.
Proof.
  apply reach_handle. apply reach_elapse; [lia|].
  apply reach_handle. exact run_reachable.
Qed.

Lemma deleteJob_then_list_witness :
  jobsKeyed Run.busy
  /\ (Scenario.globexJob ∈ [Scenario.globexJob]
      <-> Scenario.globexJob ∈ [Scenario.annJob; Scenario.globexJob]
          /\ JobSchema._id Scenario.globexJob <> 3%N).
Proof.
  split; [exact (reachable_jobsKeyed Sample.env Run.busy busy_reachable)|].
  refine (deleteJob_then_list Sample.libs Scenario.annUser Scenario.annUser
            Scenario.jobId 3%N 1%N Run.busy
            [Scenario.annJob; Scenario.globexJob] [Scenario.globexJob]
            2%nat 1%nat _ _ _ _ _ _ Scenario.globexJob).
  - exact (reachable_jobsKeyed Sample.env Run.busy busy_reachable).
  - vm_compute. reflexivity.
  - vm_compute. reflexivity.
  - vm_compute. reflexivity.
  - vm_compute. reflexivity.
  - vm_compute. reflexivity.
Defined.

Lemma protected_runs_gate_first_witness :
  protected Sample.env (Some "Bearer not.a.token")
    (fun u => deleteJob u Scenario.jobId) Run.filed
    = (inl authInvalid, Run.filed)
  /\ protected Sample.env Scenario.annHeader
       (fun u => deleteJob u Scenario.jobId) Run.filed
     = deleteJob Scenario.annUser Scenario.jobId Run.filed.
Proof.
  split.
  - destruct (protected_runs_gate_first Sample.libs Sample.env response
                (Some "Bearer not.a.token")
                (fun u => deleteJob u Scenario.jobId) Run.filed)
      as [Hrefused _].
    apply (Hrefused authInvalid Run.filed). vm_compute. reflexivity.
  - destruct (protected_runs_gate_first Sample.libs Sample.env response
                Scenario.annHeader
                (fun u => deleteJob u Scenario.jobId) Run.filed)
      as [_ Hpassed].
    apply (Hpassed Scenario.annUser Run.filed). vm_compute. reflexivity.
Defined.

Lemma register_token_expires_witness :
  exists token,
    json (match fst Scenario.annRegistered with
          | inr res => res
          | inl _ => mkResponse 0 EmptyBody
          end) = UserBody "Ann" (Some "ann@x.com") token
    /\ auth Sample.env (Some ("Bearer " +:+ token))
            (elapse 2592000000 Run.filed)
       = (inl authInvalid, elapse 2592000000 Run.filed).
Proof.
  destruct (register_token_expires Sample.libs Sample.env Scenario.ann
              Sample.start (snd Scenario.annRegistered)
              (match fst Scenario.annRegistered with
               | inr res => res
               | inl _ => mkResponse 0 EmptyBody
               end) sample_faithful)
    as (nm & em & token & d & Hjson & Hd & _ & Hgate).
  - vm_compute. reflexivity.
  - exists token. split.
    + rewrite Hjson. vm_compute in Hjson. injection Hjson as <- <- _.
      reflexivity.
    + apply Hgate. injection Hd as <-. vm_compute. discriminate.
Defined.

Lemma valid_email_shape_witness :
  exists l d, "ann@x.com" = l +:+ "@" +:+ d
              /\ l <> EmptyString /\ d <> EmptyString.
Proof. apply valid_email_shape. vm_compute. reflexivity. Defined.

Lemma valid_email_domain_witness :
  exists l d,
    "ann@x.com" = l +:+ "@" +:+ d
    /\ ((exists rest, d = String "[" rest)
        \/ (exists pre tld,
              d = pre +:+ "." +:+ tld
              /\ (2 <= String.length tld)%nat
              /\ forall c, Js.occurs c tld = true -> Regex.letter c = true)).
Proof. apply valid_email_domain. vm_compute. reflexivity. Defined.
